(** * pyprofiler: the timing recorder of [profiler.py]

    A shallow embedding of [TimingRecord], [Profiler] and the process-wide
    singleton functions, and the properties of the recorder that follow
    from the code.

    Python objects live in a store ([heap]) and are named by references, so
    that the singleton, the references callers keep and the in-place
    mutations of [records] and [_stack] alias as they do in Python.  Code
    runs in a state-and-exception monad over the [World]: the store, the
    module global, the wall clock, standard output and the file system. *)

From Stdlib Require Import Floats ZArith.
From stdpp Require Import gmap strings list.

Open Scope string_scope.

(** ** Python values *)

(** Python [float] is IEEE 754 binary64, which is what the primitive type
    [float] is. *)

(** The values a caller passes as keyword metadata and the values
    [to_dict] and [export_json] build for [json.dumps].  [PObject] is any
    other object (a set, a [datetime], ...), which [json.dumps] rejects. *)
#[warnings="-register-all"]
Inductive pyval :=
| PNone
| PBool (b : bool)
| PInt (z : Z)
| PFloat (f : float)
| PStr (s : string)
| PList (l : list pyval)
| PDict (d : list (string * pyval))
| PObject (repr : string).

(** [**metadata]: a dict with string keys, in keyword order. *)
Definition Metadata := list (string * pyval).

(** Exceptions.  [Failure] stands for whatever the caller's own code
    raises; the others are raised by the built-ins the recorder calls.
    [DanglingRef] is the outcome of dereferencing a reference that is not in
    the store, which no reference obtained from a constructor ever is. *)
Inductive exn :=
| IndexError
| ValueError
| ZeroDivisionError
| TypeError
| OverflowError
| OSError (strerror : string)
| Failure (tag : string)
| DanglingRef.

Inductive result (A : Type) :=
| Ok (a : A)
| Raise (e : exn).
Arguments Ok {A} a.
Arguments Raise {A} e.

(** ** Strings *)

(** A Python [str] is modelled by the bytes of its UTF-8 encoding.  Joining,
    splitting and the substring test agree with Python's on every string;
    lengths and slices count characters, that is, the bytes that do not
    continue a character. *)

(** A byte of the form 10xxxxxx: it continues a character. *)
Definition is_continuation (c : Ascii.ascii) : bool :=
  match c with
  | Ascii.Ascii _ _ _ _ _ _ b6 b7 => b7 && negb b6
  end.

(** [len(s)] *)
Fixpoint char_length (s : string) : nat :=
  match s with
  | EmptyString => 0
  | String c t => (if is_continuation c then 0 else 1) + char_length t
  end.

(** [s[:n]] for [n >= 0]: the first [n] characters, with all their bytes. *)
Fixpoint take_chars (n : nat) (s : string) : string :=
  match s with
  | EmptyString => EmptyString
  | String c t =>
      if is_continuation c then String c (take_chars n t)
      else
        match n with
        | O => EmptyString
        | S k => String c (take_chars k t)
        end
  end.

(** [sep.join(parts)] *)
Fixpoint join (sep : string) (parts : list string) : string :=
  match parts with
  | [] => ""
  | [x] => x
  | x :: rest => x ++ sep ++ join sep rest
  end.

(** [sub in s] *)
Fixpoint contains (sub s : string) : bool :=
  String.prefix sub s ||
  match s with
  | EmptyString => false
  | String _ t => contains sub t
  end.

(** [s.split(sep)] for a non-empty [sep]: scan left to right, cut at each
    occurrence of [sep] and resume after it.  [skip] counts the characters
    of a matched separator still to pass over, [cur] is the piece being
    read. *)
Fixpoint split_from (sep : string) (skip : nat) (cur s : string) : list string :=
  match s with
  | EmptyString => [cur]
  | String c t =>
      match skip with
      | S k => split_from sep k cur t
      | O =>
          if String.prefix sep s
          then cur :: split_from sep (String.length sep - 1) "" t
          else split_from sep 0 (cur ++ String c "") t
      end
  end.

Definition split (sep s : string) : list string := split_from sep 0 "" s.

(** ** Built-ins on lists of floats *)

(** [float(n)] for a length [n], as in [x / n] (lengths are far below
    2^63). *)
Definition float_of_nat (n : nat) : float :=
  PrimFloat.of_uint63 (Uint63.of_Z (Z.of_nat n)).

(** [sum(xs)]: left to right from 0.  (On an empty sequence Python gives
    the int 0, which compares equal to the float 0.0 used here.  From
    CPython 3.12 on [sum] compensates the rounding errors of the additions,
    so that its result can differ from this one in the last bits; what is
    summed, and in which order, is the same.) *)
Definition py_sum (xs : list float) : float :=
  fold_left PrimFloat.add xs 0%float.

(** [min(xs)]: the first element no later one is [<] than. *)
Definition py_min (xs : list float) : result float :=
  match xs with
  | [] => Raise ValueError
  | x :: rest =>
      Ok (fold_left (fun m y => if PrimFloat.ltb y m then y else m) rest x)
  end.

(** [max(xs)] *)
Definition py_max (xs : list float) : result float :=
  match xs with
  | [] => Raise ValueError
  | x :: rest =>
      Ok (fold_left (fun m y => if PrimFloat.ltb m y then y else m) rest x)
  end.

(** [total / n] with [n = len(...)]. *)
Definition py_div (x : float) (n : nat) : result float :=
  match n with
  | O => Raise ZeroDivisionError
  | S _ => Ok (PrimFloat.div x (float_of_nat n))
  end.

(** [sorted(xs, key=key)]: a stable sort that compares keys with [<] only.
    (Every stable sort gives this result when no key is NaN; with a NaN key
    the result depends on the algorithm, and CPython's can differ.) *)
Fixpoint insert_by {A} (key : A -> float) (x : A) (l : list A) : list A :=
  match l with
  | [] => [x]
  | y :: t =>
      if PrimFloat.ltb (key x) (key y) then x :: y :: t
      else y :: insert_by key x t
  end.

Definition sorted {A} (key : A -> float) (l : list A) : list A :=
  fold_left (fun acc x => insert_by key x acc) l [].

(** [l[:n]] for an int [n], negative [n] counting from the end. *)
Definition slice_to {A} (n : Z) (l : list A) : list A :=
  if (0 <=? n)%Z then take (Z.to_nat n) l
  else take (length l - Z.to_nat (- n)) l.

(** ** Dicts keyed by strings, in insertion order *)

Fixpoint dict_get {V} (k : string) (d : list (string * V)) : option V :=
  match d with
  | [] => None
  | (k', v) :: t => if String.eqb k' k then Some v else dict_get k t
  end.

(** [k in d] *)
Definition dict_contains {V} (k : string) (d : list (string * V)) : bool :=
  match dict_get k d with Some _ => true | None => false end.

(** [d[k] = v]: replaces the value of an existing key where it stands, and
    adds a new key at the end. *)
Fixpoint dict_set {V} (k : string) (v : V) (d : list (string * V))
  : list (string * V) :=
  match d with
  | [] => [(k, v)]
  | (k', v') :: t =>
      if String.eqb k' k then (k', v) :: t else (k', v') :: dict_set k v t
  end.

(** In-place change of the value [d[k]] holds (the key is present wherever
    the recorder does this: it has just been set). *)
Fixpoint dict_alter {V} (f : V -> V) (k : string) (d : list (string * V))
  : list (string * V) :=
  match d with
  | [] => []
  | (k', v') :: t =>
      if String.eqb k' k then (k', f v') :: t else (k', v') :: dict_alter f k t
  end.

(** ** The data model *)

(** [@dataclass class TimingRecord] *)
Record TimingRecord := mkTimingRecord {
  name : string;
  start_time : float;
  end_time : float;
  duration : float;
  metadata : Metadata
}.

(** The attributes of a [Profiler] object. *)
Record Profiler := mkProfiler {
  enabled : bool;
  records : list TimingRecord;
  _stack : list string
}.

(** What [print] is called with, before the f-string is formatted. *)
Inductive Line :=
| SlowNotice (full_name : string) (duration : float) (metadata : Metadata)
| CheckpointNotice (name : string) (metadata : Metadata)
| NoData
| Banner
| TotalTime (total_time : float)
| OperationHeader
| OperationRow (op_name : string) (total : float) (count : nat) (avg pct : float)
| SlowestHeader
| SlowestRow (name : string) (duration : float) (meta_str : option Metadata)
| CheckpointsHeader
| CheckpointRow (name : string) (metadata : Metadata)
| Footer
| Exported (filepath : string).

Definition loc := positive.

Record World := mkWorld {
  heap : gmap loc Profiler;
  _global_profiler : option loc;
  (** [clock n] is what the [n]-th call of [time.time()] returns *)
  clock : nat -> float;
  reads : nat;
  stdout : list Line;
  files : gmap string string
}.

Definition set_heap (f : gmap loc Profiler -> gmap loc Profiler) (w : World) : World :=
  mkWorld (f (heap w)) (_global_profiler w) (clock w) (reads w) (stdout w) (files w).

Definition set_global (g : option loc) (w : World) : World :=
  mkWorld (heap w) g (clock w) (reads w) (stdout w) (files w).

Definition set_files (f : gmap string string -> gmap string string) (w : World) : World :=
  mkWorld (heap w) (_global_profiler w) (clock w) (reads w) (stdout w) (f (files w)).

(** ** The monad of Python code *)

Definition M (A : Type) : Type := World -> result A * World.

Global Instance M_ret : MRet M := fun A a w => (Ok a, w).

Global Instance M_bind : MBind M := fun A B k m w =>
  match m w with
  | (Ok a, w') => k a w'
  | (Raise e, w') => (Raise e, w')
  end.

Definition raise {A} (e : exn) : M A := fun w => (Raise e, w).

(** [try: body finally: cleanup]: the cleanup runs on every exit of the
    body; if it raises, its exception replaces the body's outcome. *)
Definition try_finally {A} (body : M A) (cleanup : M unit) : M A := fun w =>
  let '(r, w1) := body w in
  match cleanup w1 with
  | (Ok _, w2) => (r, w2)
  | (Raise e, w2) => (Raise e, w2)
  end.

(** [time.time()] *)
Definition time_time : M float := fun w =>
  (Ok (clock w (reads w)),
   mkWorld (heap w) (_global_profiler w) (clock w) (S (reads w)) (stdout w) (files w)).

(** [print(...)] *)
Definition print (l : Line) : M unit := fun w =>
  (Ok tt,
   mkWorld (heap w) (_global_profiler w) (clock w) (reads w) (stdout w ++ [l]) (files w)).

(** Reading and writing the object a reference names. *)
Definition load (self : loc) : M Profiler := fun w =>
  match heap w !! self with
  | Some p => (Ok p, w)
  | None => (Raise DanglingRef, w)
  end.

Definition store (self : loc) (p : Profiler) : M unit := fun w =>
  (Ok tt, set_heap (insert self p) w).

(** A new object, at a reference not in use. *)
Definition alloc (p : Profiler) : M loc := fun w =>
  let l := fresh (dom (heap w)) in
  (Ok l, set_heap (insert l p) w).

(** [self._stack.append(x)] *)
Definition stack_append (self : loc) (x : string) : M unit :=
  p ← load self;
  store self (mkProfiler (enabled p) (records p) (_stack p ++ [x])).

(** [self._stack.pop()] *)
Definition stack_pop (self : loc) : M string :=
  p ← load self;
  match last (_stack p) with
  | None => raise IndexError
  | Some x =>
      store self (mkProfiler (enabled p) (records p) (removelast (_stack p)));;
      mret x
  end.

(** [self.records.append(record)] *)
Definition records_append (self : loc) (record : TimingRecord) : M unit :=
  p ← load self;
  store self (mkProfiler (enabled p) (records p ++ [record]) (_stack p)).

(** [self.enabled = b] *)
Definition set_enabled (self : loc) (b : bool) : M unit :=
  p ← load self;
  store self (mkProfiler b (records p) (_stack p)).

(** The same for the built-ins that fail instead of returning. *)
Global Instance result_ret : MRet result := fun A a => Ok a.

Global Instance result_bind : MBind result := fun A B k r =>
  match r with
  | Ok a => k a
  | Raise e => Raise e
  end.

Definition lift {A} (r : result A) : M A := fun w => (r, w).

(** ** class Profiler *)

(** A record counts as a checkpoint for the summary and the statistics
    when ["CHECKPOINT" in record.name]. *)
Definition is_checkpoint (r : TimingRecord) : bool :=
  contains "CHECKPOINT" (name r).

(** [name.split(" > ")[0]] ([split] never returns an empty list). *)
Definition top_level (name : string) : string :=
  match split " > " name with
  | x :: _ => x
  | [] => ""
  end.

(** The state of the generator behind [Profiler.time] while it is suspended
    at its [yield]: in the disabled branch, or inside the [try] with its
    locals. *)
Inductive TimeFrame :=
| Passthrough
| Timing (full_name : string) (start : float) (metadata : Metadata).

(** [data] of [print_summary]: ["total"], ["count"], ["records"]. *)
Record OpData := mkOpData {
  op_total : float;
  op_count : nat;
  op_records : list TimingRecord
}.

(** The values of [get_stats]: ["total"], ["count"], ["avg"], ["min"],
    ["max"]. *)
Record Stats := mkStats {
  total : float;
  count : nat;
  avg : float;
  stat_min : float;
  stat_max : float
}.

Module Profiler.

(** [Profiler(enabled)] *)
Definition __init__ (enabled : bool) : M loc :=
  alloc (mkProfiler enabled [] []).

(** [time], up to its [yield]: what [with] runs on entry. *)
Definition time_enter (self : loc) (name : string) (metadata : Metadata)
  : M TimeFrame :=
  p ← load self;
  if negb (enabled p) then mret Passthrough
  else
    let full_name :=
      match _stack p with
      | [] => name
      | _ :: _ => join " > " (_stack p ++ [name])
      end in
    stack_append self name;;
    start ← time_time;
    mret (Timing full_name start metadata).

(** [time], from its [yield] on: what [with] runs on every exit of the
    block, normal or not. *)
Definition time_exit (self : loc) (fr : TimeFrame) : M unit :=
  match fr with
  | Passthrough => mret tt
  | Timing full_name start metadata =>
      end_ ← time_time;
      let duration := (end_ - start)%float in
      let record := mkTimingRecord full_name start end_ duration metadata in
      records_append self record;;
      stack_pop self;;
      if (5.0 <? duration)%float
      then print (SlowNotice full_name duration metadata)
      else mret tt
  end.

(** [with self.time(name, **metadata): body] *)
Definition time {A} (self : loc) (name : string) (metadata : Metadata)
    (body : M A) : M A :=
  fr ← time_enter self name metadata;
  try_finally body (time_exit self fr).

(** [self.track(func)], for a [func] whose [__name__] is [func_name]. *)
Definition track {A B} (self : loc) (func_name : string) (func : A -> M B)
  : A -> M B :=
  fun args => time self func_name [] (func args).

Definition checkpoint (self : loc) (name : string) (metadata : Metadata)
  : M unit :=
  p ← load self;
  if negb (enabled p) then mret tt
  else
    start ← time_time;
    end_ ← time_time;
    let record :=
      mkTimingRecord ("CHECKPOINT: " ++ name) start end_ 0%float metadata in
    records_append self record;;
    print (CheckpointNotice name metadata).

(** *** print_summary *)

Definition total_time (records : list TimingRecord) : float :=
  py_sum (map duration (List.filter (fun r => negb (is_checkpoint r)) records)).

Definition by_operation_step (by_operation : list (string * OpData))
    (record : TimingRecord) : list (string * OpData) :=
  if is_checkpoint record then by_operation
  else
    let top := top_level (name record) in
    let d :=
      if dict_contains top by_operation then by_operation
      else dict_set top (mkOpData 0%float 0 []) by_operation in
    dict_alter
      (fun data =>
         mkOpData (op_total data + duration record)%float
                  (S (op_count data))
                  (op_records data ++ [record]))
      top d.

Definition by_operation (records : list TimingRecord)
  : list (string * OpData) :=
  fold_left by_operation_step records [].

Definition sorted_ops (records : list TimingRecord)
  : list (string * OpData) :=
  sorted (fun x => (- op_total (snd x))%float) (by_operation records).

Definition operation_row (total_time : float) (x : string * OpData) : Line :=
  let total := op_total (snd x) in
  let count := op_count (snd x) in
  let avg :=
    match count with
    | O => 0%float
    | S _ => (total / float_of_nat count)%float
    end in
  let pct :=
    if (0 <? total_time)%float then (total / total_time * 100)%float
    else 0%float in
  OperationRow (fst x) total count avg pct.

Definition slowest (records : list TimingRecord) : list TimingRecord :=
  take 10
    (sorted (fun x => (- duration x)%float)
       (List.filter (fun r => negb (is_checkpoint r)) records)).

Definition slowest_row (record : TimingRecord) : Line :=
  let shown :=
    if Nat.leb (char_length (name record)) 57 then name record
    else take_chars 54 (name record) ++ "..." in
  let meta_str :=
    match metadata record with
    | [] => None
    | _ :: _ => Some (metadata record)
    end in
  SlowestRow shown (duration record) meta_str.

Definition checkpoints (records : list TimingRecord) : list TimingRecord :=
  List.filter is_checkpoint records.

Definition summary_lines (top_n : Z) (records : list TimingRecord)
  : list Line :=
  [Banner; TotalTime (total_time records); OperationHeader]
  ++ map (operation_row (total_time records))
       (slice_to top_n (sorted_ops records))
  ++ [SlowestHeader]
  ++ map slowest_row (slowest records)
  ++ match checkpoints records with
     | [] => []
     | cps => CheckpointsHeader
              :: map (fun cp => CheckpointRow (name cp) (metadata cp)) cps
     end
  ++ [Footer].

Fixpoint print_all (ls : list Line) : M unit :=
  match ls with
  | [] => mret tt
  | l :: rest => print l;; print_all rest
  end.

Definition print_summary (self : loc) (top_n : Z) : M unit :=
  p ← load self;
  match records p with
  | [] => print NoData
  | _ :: _ => print_all (summary_lines top_n (records p))
  end.

(** *** get_stats *)

Definition durations_step (by_operation : list (string * list float))
    (record : TimingRecord) : list (string * list float) :=
  if is_checkpoint record then by_operation
  else
    let top := top_level (name record) in
    let d :=
      if dict_contains top by_operation then by_operation
      else dict_set top [] by_operation in
    dict_alter (fun durations => (durations ++ [duration record])%list) top d.

Definition durations_by_operation (records : list TimingRecord)
  : list (string * list float) :=
  fold_left durations_step records [].

(** The dict literal of one operation, its entries evaluated in order. *)
Definition stats_of (durations : list float) : result Stats :=
  let total := py_sum durations in
  let count := length durations in
  avg ← py_div (py_sum durations) (length durations);
  lo ← py_min durations;
  hi ← py_max durations;
  mret (mkStats total count avg lo hi).

Fixpoint stats_loop (items : list (string * list float))
    (stats : list (string * Stats)) : result (list (string * Stats)) :=
  match items with
  | [] => mret stats
  | (op, durations) :: rest =>
      s ← stats_of durations;
      stats_loop rest (dict_set op s stats)
  end.

Definition stats_of_records (records : list TimingRecord)
  : result (list (string * Stats)) :=
  match records with
  | [] => mret []
  | _ :: _ => stats_loop (durations_by_operation records) []
  end.

Definition get_stats (self : loc) : M (list (string * Stats)) :=
  p ← load self;
  lift (stats_of_records (records p)).

(** *** export_json *)

Section Exporting.
(** The library and the environment the export goes through: [round(x, n)];
    [datetime.fromtimestamp(t).isoformat()], which raises on a timestamp
    out of range or NaN; [sum(xs)] on a non-empty list of floats;
    [json.dumps(data, indent=2)], which raises on a value it cannot
    serialise; and the error, if any, of opening a path for writing. *)
Variable round : float -> Z -> float.
Variable isoformat : float -> result string.
Variable float_sum : list float -> float.
Variable json_dumps : pyval -> result string.
Variable write_error : string -> option exn.

(** [TimingRecord.to_dict] *)
Definition to_dict (r : TimingRecord) : result pyval :=
  start ← isoformat (start_time r);
  end_ ← isoformat (end_time r);
  mret (PDict [("name", PStr (name r));
               ("start_time", PStr start);
               ("end_time", PStr end_);
               ("duration_seconds", PFloat (round (duration r) 3));
               ("metadata", PDict (metadata r))]).

(** [[r.to_dict() for r in self.records]] *)
Fixpoint to_dict_all (records : list TimingRecord) : result (list pyval) :=
  match records with
  | [] => mret []
  | r :: rest =>
      d ← to_dict r;
      ds ← to_dict_all rest;
      mret (d :: ds)
  end.

(** [sum(r.duration for r in self.records)]: the int 0 when there is no
    record. *)
Definition sum_durations (records : list TimingRecord) : pyval :=
  match records with
  | [] => PInt 0
  | _ :: _ => PFloat (float_sum (map duration records))
  end.

(** [data] of [export_json], its entries evaluated in order. *)
Definition export_data (records : list TimingRecord) : result pyval :=
  let total_time := sum_durations records in
  let num_operations := PInt (Z.of_nat (length records)) in
  ds ← to_dict_all records;
  mret (PDict [("total_time", total_time);
               ("num_operations", num_operations);
               ("records", PList ds)]).

(** [Path(filepath).write_text(text)] *)
Definition write_text (filepath text : string) : M unit := fun w =>
  match write_error filepath with
  | Some e => (Raise e, w)
  | None => (Ok tt, set_files (insert filepath text) w)
  end.

Definition export_json (self : loc) (filepath : string) : M unit :=
  p ← load self;
  data ← lift (export_data (records p));
  text ← lift (json_dumps data);
  write_text filepath text;;
  print (Exported filepath).
End Exporting.

End Profiler.

(** ** The module-level singleton *)

Definition read_global : M (option loc) := fun w => (Ok (_global_profiler w), w).

Definition write_global (g : option loc) : M unit := fun w =>
  (Ok tt, set_global g w).

Definition get_profiler : M loc :=
  g ← read_global;
  match g with
  | None =>
      l ← Profiler.__init__ true;
      write_global (Some l);;
      mret l
  | Some l => mret l
  end.

Definition enable_profiling : M unit :=
  l ← Profiler.__init__ true;
  write_global (Some l).

(** [if _global_profiler:] is true of every [Profiler] object: the class
    defines neither [__bool__] nor [__len__]. *)
Definition disable_profiling : M unit :=
  g ← read_global;
  match g with
  | Some l => set_enabled l false
  | None => mret tt
  end.

Definition time_block {A} (name : string) (metadata : Metadata) (body : M A)
  : M A :=
  self ← get_profiler;
  Profiler.time self name metadata body.

Definition checkpoint (name : string) (metadata : Metadata) : M unit :=
  self ← get_profiler;
  Profiler.checkpoint self name metadata.

Definition print_summary (top_n : Z) : M unit :=
  self ← get_profiler;
  Profiler.print_summary self top_n.

Definition export_json (round : float -> Z -> float)
    (isoformat : float -> result string) (float_sum : list float -> float)
    (json_dumps : pyval -> result string) (write_error : string -> option exn)
    (filepath : string) : M unit :=
  self ← get_profiler;
  Profiler.export_json round isoformat float_sum json_dumps write_error
    self filepath.

(** ** Sequences of scoped-timing calls *)

(** What a caller does to the recorder through [with p.time(...)]: enter a
    scope, or leave the innermost open one, normally ([Exit None]) or
    because the block raised ([Exit (Some e)]). *)
Inductive event :=
| Enter (name : string) (metadata : Metadata)
| Exit (failure : option exn).

(** Running a sequence of such calls; [open] holds the suspended
    generators of the scopes that are open, innermost first. *)
Fixpoint replay (self : loc) (evs : list event) (open : list TimeFrame)
  : M (list TimeFrame) :=
  match evs with
  | [] => mret open
  | Enter name metadata :: rest =>
      fr ← Profiler.time_enter self name metadata;
      replay self rest (fr :: open)
  | Exit _ :: rest =>
      match open with
      | [] => replay self rest []
      | fr :: open' => Profiler.time_exit self fr;; replay self rest open'
      end
  end.

(** Properly paired: no exit without an open scope, [d] being open. *)
Fixpoint paired (d : nat) (evs : list event) : bool :=
  match evs with
  | [] => true
  | Enter _ _ :: rest => paired (S d) rest
  | Exit _ :: rest =>
      match d with
      | O => false
      | S d' => paired d' rest
      end
  end.

(** The nesting depth of open scopes after [evs], from depth [d]. *)
Fixpoint depth (d : nat) (evs : list event) : nat :=
  match evs with
  | [] => d
  | Enter _ _ :: rest => depth (S d) rest
  | Exit _ :: rest => depth (Nat.pred d) rest
  end.

(** The number of scopes entered. *)
Fixpoint entered (evs : list event) : nat :=
  match evs with
  | [] => 0
  | Enter _ _ :: rest => S (entered rest)
  | Exit _ :: rest => entered rest
  end.

(** ** What the caller's blocks may do *)

(** A block that leaves the recorder object as it found it. *)
Definition keeps_recorder {A} (self : loc) (body : M A) : Prop :=
  ∀ w, heap (body w).2 !! self = heap w !! self.

(** A block that leaves the scope stack of the recorder as it found it: the
    scopes it opens are closed when it ends, however it ends. *)
Definition keeps_stack {A} (self : loc) (body : M A) : Prop :=
  ∀ w p, heap w !! self = Some p →
    ∃ p', heap (body w).2 !! self = Some p' ∧ _stack p' = _stack p.

(** The record a scope leaves: entered at reading [start], left at [end_]. *)
Definition scope_record (stack : list string) (name : string)
    (metadata : Metadata) (start end_ : float) : TimingRecord :=
  mkTimingRecord (join " > " (stack ++ [name])) start end_
    (end_ - start)%float metadata.

(** A block that, run with the recorder enabled, leaves it enabled, closes
    the scopes it opens, and appends records whose names, in order, are
    [names stack] when it starts with the scope stack [stack]. *)
Definition appends_names {A} (self : loc) (body : M A)
    (names : list string → list string) : Prop :=
  ∀ w p, heap w !! self = Some p → enabled p = true →
    ∃ p' rs, heap (body w).2 !! self = Some p' ∧
      enabled p' = true ∧
      _stack p' = _stack p ∧
      records p' = (records p ++ rs)%list ∧
      map name rs = names (_stack p).

(** ** The spec's words, for comparison with the code *)

(** The substring of [s] before the first occurrence of [sep] (all of [s]
    when there is none). *)
Fixpoint before_first (sep s : string) : string :=
  if String.prefix sep s then ""
  else
    match s with
    | EmptyString => ""
    | String c t => String c (before_first sep t)
    end.

(** The durations of the group [op]: those of the records, in order, that
    are not excluded as checkpoints and whose top-level name is [op]. *)
Definition group_durations (op : string) (records : list TimingRecord)
  : list float :=
  map duration
    (List.filter
       (fun r => negb (is_checkpoint r)
                 && String.eqb (before_first " > " (name r)) op)
       records).

(** [v[k]] for a dict [v]. *)
Definition pyval_get (k : string) (v : pyval) : option pyval :=
  match v with
  | PDict d => dict_get k d
  | _ => None
  end.

(** ** Nested scopes of any depth *)

(** [with p.time(n1, **md1): with p.time(n2, **md2): ... work] *)
Fixpoint nest {A} (self : loc) (scopes : list (string * Metadata))
    (work : M A) : M A :=
  match scopes with
  | [] => work
  | (n, md) :: inner => Profiler.time self n md (nest self inner work)
  end.

(** The qualified names of scopes nested in the order [names] below the
    scope stack [stack], innermost first. *)
Fixpoint nested_names (stack names : list string) : list string :=
  match names with
  | [] => []
  | n :: inner =>
      (nested_names (stack ++ [n]) inner ++ [join " > " (stack ++ [n])])%list
  end.

(** ** The sections of the summary *)

(** The records of the group [op], in order. *)
Definition group_records (op : string) (records : list TimingRecord)
  : list TimingRecord :=
  List.filter
    (fun r => negb (is_checkpoint r)
              && String.eqb (before_first " > " (name r)) op)
    records.

Definition is_operation_row (l : Line) : bool :=
  match l with OperationRow _ _ _ _ _ => true | _ => false end.

Definition is_slowest_row (l : Line) : bool :=
  match l with SlowestRow _ _ _ => true | _ => false end.

Definition is_checkpoint_row (l : Line) : bool :=
  match l with CheckpointRow _ _ => true | _ => false end.

(** What a sort by [key] leaves: no element's key is [<] the key of an
    element before it. *)
Fixpoint in_key_order {A} (key : A -> float) (l : list A) : Prop :=
  match l with
  | [] => True
  | a :: rest =>
      Forall (fun b => (key b <? key a)%float = false) rest
      /\ in_key_order key rest
  end.

(** ** Concrete worlds, for the examples *)

(** A clock that advances by one second at every reading. *)
Definition tick_clock (n : nat) : float := float_of_nat n.

(** A process in which nothing has run yet. *)
Definition fresh_world : World := mkWorld ∅ None tick_clock 0 [] ∅.

(** A process holding one recorder, [p], which is also the singleton when
    [is_global]. *)
Definition world_with (p : Profiler) (is_global : bool) : World :=
  mkWorld {[1%positive := p]} (if is_global then Some 1%positive else None)
    tick_clock 0 [] ∅.

(** A clock whose readings are a microsecond apart, as two calls of
    [time.time()] in a row are. *)
Definition microsecond_clock (n : nat) : float :=
  (1700000000 + float_of_nat n / 1000000)%float.

(** * Properties *)

(** Running monadic code by hand: the operations of the monad and the
    accesses to the store unfold to functions on the [World]. *)
Create HintDb pyrun discriminated.
#[global] Hint Unfold stack_append stack_pop records_append set_enabled
  load store alloc time_time print read_global write_global lift raise
  mbind M_bind mret M_ret set_heap set_global : pyrun.

Ltac run := autounfold with pyrun.

Section Steps.
Context (self : loc).

Lemma join_last name stack :
  match stack with
  | [] => name
  | _ :: _ => join " > " (stack ++ [name])
  end = join " > " (stack ++ [name]).
Proof. by destruct stack. Qed.

Lemma time_enter_enabled w p name md :
  heap w !! self = Some p →
  enabled p = true →
  Profiler.time_enter self name md w =
    (Ok (Timing (join " > " (_stack p ++ [name])) (clock w (reads w)) md),
     mkWorld (<[self := mkProfiler true (records p) (_stack p ++ [name])]> (heap w))
       (_global_profiler w) (clock w) (S (reads w)) (stdout w) (files w)).
Proof.
  intros Hp Hen.
  unfold Profiler.time_enter. run.
  rewrite Hp, Hen. simpl. rewrite Hp. simpl.
  by rewrite join_last, Hen.
Qed.

Lemma time_enter_disabled w p name md :
  heap w !! self = Some p →
  enabled p = false →
  Profiler.time_enter self name md w = (Ok Passthrough, w).
Proof.
  intros Hp Hen.
  unfold Profiler.time_enter. run.
  by rewrite Hp, Hen.
Qed.

Lemma time_exit_timing w p stack x full_name start md :
  heap w !! self = Some p →
  _stack p = (stack ++ [x])%list →
  let end_ := clock w (reads w) in
  let dur := (end_ - start)%float in
  Profiler.time_exit self (Timing full_name start md) w =
    (Ok tt,
     mkWorld
       (<[self := mkProfiler (enabled p)
                    (records p ++ [mkTimingRecord full_name start end_ dur md])
                    stack]> (heap w))
       (_global_profiler w) (clock w) (S (reads w))
       (if (5.0 <? dur)%float
        then (stdout w ++ [SlowNotice full_name dur md])%list
        else stdout w)
       (files w)).
Proof.
  intros Hp Hst end_ dur.
  unfold Profiler.time_exit. run.
  simpl. rewrite Hp. simpl. rewrite lookup_insert_eq. simpl.
  rewrite Hst, last_snoc. simpl.
  rewrite removelast_last, insert_insert_eq.
  fold end_. fold dur. by destruct (5.0 <? dur)%float.
Qed.
End Steps.

(** ** Strings *)

Lemma append_nil_l (s : string) : "" ++ s = s.
Proof. reflexivity. Qed.

Lemma append_cons c (s t : string) : String c s ++ t = String c (s ++ t).
Proof. reflexivity. Qed.

Lemma append_empty_r (s : string) : s ++ "" = s.
Proof.
  induction s as [|c s IH]; [done|]. by rewrite append_cons, IH.
Qed.

Lemma append_assoc (a b c : string) : (a ++ b) ++ c = a ++ (b ++ c).
Proof.
  induction a as [|x a IH]; [done|]. by rewrite !append_cons, IH.
Qed.

Lemma prefix_append (a b : string) : String.prefix a (a ++ b) = true.
Proof.
  induction a as [|x a IH]; [by destruct b|].
  rewrite append_cons. simpl.
  destruct (Ascii.ascii_dec x x); [done | congruence].
Qed.

Lemma prefix_cut (sub s : string) :
  String.prefix sub s = true → ∃ b, s = sub ++ b.
Proof.
  revert s. induction sub as [|x sub IH]; intros s H.
  - by exists s.
  - destruct s as [|y s]; simpl in H; [done|].
    destruct (Ascii.ascii_dec x y) as [->|]; [|done].
    destruct (IH s H) as [b ->]. by exists b.
Qed.

(** [contains] is the substring test. *)
Lemma contains_spec (sub s : string) :
  contains sub s = true ↔ ∃ a b, s = a ++ sub ++ b.
Proof.
  split.
  - induction s as [|c s IH]; cbn [contains]; intros H.
    + rewrite orb_false_r in H. destruct (prefix_cut _ _ H) as [b Hb].
      by exists "", b.
    + apply orb_true_iff in H as [H|H].
      * destruct (prefix_cut _ _ H) as [b Hb]. by exists "", b.
      * destruct (IH H) as (a & b & ->). by exists (String c a), b.
  - intros (a & b & ->). induction a as [|x a IH].
    + rewrite append_nil_l.
      destruct (sub ++ b) eqn:E; cbn [contains]; rewrite <- E, prefix_append; done.
    + rewrite append_cons. cbn [contains]. rewrite IH. apply orb_true_r.
Qed.

Lemma split_from_head sep cur s :
  head (split_from sep 0 cur s) = Some (cur ++ before_first sep s).
Proof.
  revert cur. induction s as [|c s IH]; intros cur.
  - cbn [split_from before_first head].
    destruct (String.prefix sep ""); by rewrite append_empty_r.
  - cbn [split_from before_first].
    destruct (String.prefix sep (String c s)).
    + simpl. by rewrite append_empty_r.
    + by rewrite IH, append_assoc.
Qed.

(** The code's [split(" > ")[0]] is the spec's substring before the first
    separator. *)
Lemma top_level_before_first name : top_level name = before_first " > " name.
Proof.
  unfold top_level, split.
  pose proof (split_from_head " > " "" name) as H.
  destruct (split_from " > " 0 "" name); simpl in H; [done | by inversion H].
Qed.

Lemma before_first_cut sep s :
  contains sep s = true → ∃ rest, s = before_first sep s ++ sep ++ rest.
Proof.
  induction s as [|c s IH]; cbn [contains before_first].
  - rewrite orb_false_r. intros H. rewrite H. by apply prefix_cut.
  - destruct (String.prefix sep (String c s)) eqn:E.
    + intros _. by apply prefix_cut.
    + cbn [orb]. intros H. destruct (IH H) as [rest Hr]. exists rest.
      by rewrite append_cons, <- Hr.
Qed.

(** ** Insertion-ordered dicts *)

Section Dicts.
Context {V : Type}.
Implicit Types (d : list (string * V)) (k : string).

Lemma dict_get_set_eq k v d : dict_get k (dict_set k v d) = Some v.
Proof.
  induction d as [|[k' v'] d IH]; simpl.
  - by rewrite String.eqb_refl.
  - destruct (String.eqb k' k) eqn:E; simpl; rewrite E; done.
Qed.

Lemma dict_get_set_ne k k' v d :
  k ≠ k' → dict_get k' (dict_set k v d) = dict_get k' d.
Proof.
  intros Hne. induction d as [|[k0 v0] d IH]; simpl.
  - by apply String.eqb_neq in Hne as ->.
  - destruct (String.eqb k0 k) eqn:E; simpl; [|by rewrite IH].
    apply String.eqb_eq in E as ->. by apply String.eqb_neq in Hne as ->.
Qed.

Lemma dict_get_alter_eq f k d :
  dict_get k (dict_alter f k d) = f <$> dict_get k d.
Proof.
  induction d as [|[k' v'] d IH]; simpl; [done|].
  destruct (String.eqb k' k) eqn:E; simpl; rewrite E; done.
Qed.

Lemma dict_get_alter_ne f k k' d :
  k ≠ k' → dict_get k' (dict_alter f k d) = dict_get k' d.
Proof.
  intros Hne. induction d as [|[k0 v0] d IH]; simpl; [done|].
  destruct (String.eqb k0 k) eqn:E; simpl; [|by rewrite IH].
  apply String.eqb_eq in E as ->. by apply String.eqb_neq in Hne as ->.
Qed.

Lemma dict_get_None k d : dict_get k d = None ↔ k ∉ map fst d.
Proof.
  induction d as [|[k' v'] d IH]; simpl.
  - split; [intros _; apply not_elem_of_nil | done].
  - rewrite not_elem_of_cons. destruct (String.eqb k' k) eqn:E.
    + apply String.eqb_eq in E as ->. split; [done | by intros [? _]].
    + apply String.eqb_neq in E. rewrite IH.
      split; [intros H; split; [congruence | exact H] | by intros [_ H]].
Qed.

Lemma dict_get_elem k v d :
  NoDup (map fst d) → (k, v) ∈ d → dict_get k d = Some v.
Proof.
  induction d as [|[k' v'] d IH]; simpl; intros Hnd Hin.
  - by apply elem_of_nil in Hin.
  - apply NoDup_cons in Hnd as [Hk Hnd].
    apply elem_of_cons in Hin as [Heq|Hin].
    + inversion Heq; subst. by rewrite String.eqb_refl.
    + destruct (String.eqb k' k) eqn:E; [|by apply IH].
      apply String.eqb_eq in E as ->. exfalso. apply Hk.
      apply list_elem_of_fmap. by exists (k, v).
Qed.

Lemma dict_alter_keys f k d : map fst (dict_alter f k d) = map fst d.
Proof.
  induction d as [|[k' v'] d IH]; simpl; [done|].
  destruct (String.eqb k' k); simpl; [done | by rewrite IH].
Qed.

Lemma dict_set_keys k v d :
  map fst (dict_set k v d) =
    if dict_contains k d then map fst d else (map fst d ++ [k])%list.
Proof.
  unfold dict_contains. induction d as [|[k' v'] d IH]; simpl; [done|].
  destruct (String.eqb k' k); simpl; [done|].
  rewrite IH. by destruct (dict_get k d).
Qed.

Lemma dict_set_NoDup k v d : NoDup (map fst d) → NoDup (map fst (dict_set k v d)).
Proof.
  intros Hnd. rewrite dict_set_keys. unfold dict_contains.
  destruct (dict_get k d) eqn:E; [done|].
  apply dict_get_None in E. apply NoDup_app. split_and!; [done| |apply NoDup_singleton].
  intros x Hx Hx'. apply list_elem_of_singleton in Hx' as ->. done.
Qed.
End Dicts.

(** ** Statistics extraction *)

Lemma durations_step_get d r op :
  dict_get op (Profiler.durations_step d r) =
    if negb (is_checkpoint r) && String.eqb (before_first " > " (name r)) op
    then Some (default [] (dict_get op d) ++ [duration r])%list
    else dict_get op d.
Proof.
  unfold Profiler.durations_step. rewrite top_level_before_first.
  destruct (is_checkpoint r); simpl; [done|].
  set (top := before_first " > " (name r)).
  destruct (String.eqb top op) eqn:E.
  - apply String.eqb_eq in E as <-. rewrite dict_get_alter_eq.
    unfold dict_contains. destruct (dict_get top d) eqn:G; simpl.
    + by rewrite G.
    + by rewrite dict_get_set_eq.
  - apply String.eqb_neq in E. rewrite dict_get_alter_ne by done.
    destruct (dict_contains top d); [done|]. by rewrite dict_get_set_ne.
Qed.

Lemma durations_step_NoDup d r :
  NoDup (map fst d) → NoDup (map fst (Profiler.durations_step d r)).
Proof.
  intros Hnd. unfold Profiler.durations_step.
  destruct (is_checkpoint r); [done|].
  rewrite dict_alter_keys.
  destruct (dict_contains _ d); [done | by apply dict_set_NoDup].
Qed.

Lemma durations_fold_NoDup rs d :
  NoDup (map fst d) → NoDup (map fst (fold_left Profiler.durations_step rs d)).
Proof.
  revert d. induction rs as [|r rs IH]; intros d Hnd; simpl; [done|].
  by apply IH, durations_step_NoDup.
Qed.

Lemma durations_fold_get rs d op :
  dict_get op (fold_left Profiler.durations_step rs d) =
    match group_durations op rs with
    | [] => dict_get op d
    | g => Some (default [] (dict_get op d) ++ g)%list
    end.
Proof.
  revert d. induction rs as [|r rs IH]; intros d; [done|].
  cbn [fold_left]. rewrite IH, durations_step_get.
  unfold group_durations. cbn [List.filter].
  destruct (negb (is_checkpoint r) && String.eqb (before_first " > " (name r)) op);
    cbn [map].
  - destruct (map duration (List.filter _ rs)); simpl; [done|].
    by rewrite <- app_assoc.
  - done.
Qed.

(** Every key of [by_operation] holds the durations of its group, which is
    not empty. *)
Lemma durations_by_operation_get rs op :
  dict_get op (Profiler.durations_by_operation rs) =
    match group_durations op rs with
    | [] => None
    | g => Some g
    end.
Proof.
  unfold Profiler.durations_by_operation. rewrite durations_fold_get.
  by destruct (group_durations op rs).
Qed.

Lemma stats_of_cons x rest :
  Profiler.stats_of (x :: rest) =
    Ok (mkStats (py_sum (x :: rest)) (length (x :: rest))
          (py_sum (x :: rest) / float_of_nat (length (x :: rest)))%float
          (fold_left (fun m y => if (y <? m)%float then y else m) rest x)
          (fold_left (fun m y => if (m <? y)%float then y else m) rest x)).
Proof. reflexivity. Qed.

Lemma stats_loop_get items acc :
  NoDup (map fst items) →
  (∀ k v, (k, v) ∈ items → v ≠ []) →
  ∃ stats, Profiler.stats_loop items acc = Ok stats ∧
    (NoDup (map fst acc) → NoDup (map fst stats)) ∧
    ∀ op, dict_get op stats =
      match dict_get op items with
      | Some (x :: rest) =>
          match Profiler.stats_of (x :: rest) with
          | Ok s => Some s
          | Raise _ => None
          end
      | _ => dict_get op acc
      end.
Proof.
  revert acc. induction items as [|[k v] items IH]; intros acc Hnd Hne.
  - exists acc. by split_and!.
  - cbn [map fst] in Hnd. apply NoDup_cons in Hnd as [Hk Hnd].
    destruct v as [|x rest]; [by destruct (Hne k []); [left|]|].
    cbn [Profiler.stats_loop]. rewrite stats_of_cons.
    set (s := mkStats _ _ _ _ _).
    destruct (IH (dict_set k s acc) Hnd) as (stats & Hrun & Hkeys & Hget).
    { intros k' v' Hin. apply (Hne k'). by right. }
    exists stats. split_and!.
    + done.
    + intros Hacc. by apply Hkeys, dict_set_NoDup.
    + intros op. rewrite Hget. cbn [dict_get].
      destruct (String.eqb k op) eqn:E.
      * apply String.eqb_eq in E as <-.
        apply dict_get_None in Hk. rewrite Hk, dict_get_set_eq.
        by rewrite stats_of_cons.
      * apply String.eqb_neq in E.
        destruct (dict_get op items) as [[|]|]; try done;
          by rewrite dict_get_set_ne.
Qed.

Lemma stats_of_records_spec rs :
  ∃ stats, Profiler.stats_of_records rs = Ok stats ∧
    NoDup (map fst stats) ∧
    ∀ op, dict_get op stats =
      match group_durations op rs with
      | [] => None
      | x :: rest =>
          Some (mkStats (py_sum (x :: rest)) (length (x :: rest))
                  (py_sum (x :: rest) / float_of_nat (length (x :: rest)))%float
                  (fold_left (fun m y => if (y <? m)%float then y else m) rest x)
                  (fold_left (fun m y => if (m <? y)%float then y else m) rest x))
      end.
Proof.
  destruct rs as [|r rs].
  - exists []. split_and!; [done | apply NoDup_nil_2 | done].
  - unfold Profiler.stats_of_records.
    set (items := Profiler.durations_by_operation (r :: rs)).
    assert (Hnd : NoDup (map fst items)).
    { apply durations_fold_NoDup, NoDup_nil_2. }
    destruct (stats_loop_get items [] Hnd) as (stats & Hrun & Hkeys & Hget).
    { intros k v Hin Hv. apply (dict_get_elem _ _ _ Hnd) in Hin.
      unfold items in Hin. rewrite durations_by_operation_get in Hin.
      destruct (group_durations k (r :: rs)); congruence. }
    exists stats. split_and!; [done | apply Hkeys, NoDup_nil_2 |].
    intros op. rewrite Hget. unfold items.
    rewrite durations_by_operation_get.
    by destruct (group_durations op (r :: rs)).
Qed.

(** ** Scoped timing *)

Lemma time_unfold {A} self name md (body : M A) w fr w1 r w2 w3 :
  Profiler.time_enter self name md w = (Ok fr, w1) →
  body w1 = (r, w2) →
  Profiler.time_exit self fr w2 = (Ok tt, w3) →
  Profiler.time self name md body w = (r, w3).
Proof.
  intros He Hb Hx.
  unfold Profiler.time, try_finally, mbind, M_bind.
  by rewrite He, Hb, Hx.
Qed.

(** With the recorder disabled, [with p.time(...)] is the block itself. *)
Lemma time_disabled {A} self name md (body : M A) w p :
  heap w !! self = Some p →
  enabled p = false →
  Profiler.time self name md body w = body w.
Proof.
  intros Hp Hen.
  unfold Profiler.time, try_finally, mbind, M_bind.
  rewrite (time_enter_disabled self w p) by done.
  by destruct (body w) as [r w1].
Qed.

(** An enabled scope around a block that ends with the scope's own name on
    top of the stack: the block's outcome is the scope's, and the scope's
    record is appended after the block's. *)
Lemma time_enabled {A} self name md (body : M A) w p :
  heap w !! self = Some p →
  enabled p = true →
  ∀ r w2 p2,
    body (Profiler.time_enter self name md w).2 = (r, w2) →
    heap w2 !! self = Some p2 →
    _stack p2 = (_stack p ++ [name])%list →
    ∃ w3,
      Profiler.time self name md body w = (r, w3) ∧
      heap w3 =
        <[self := mkProfiler (enabled p2)
                    (records p2 ++
                     [scope_record (_stack p) name md
                        (clock w (reads w)) (clock w2 (reads w2))])
                    (_stack p)]> (heap w2) ∧
      _global_profiler w3 = _global_profiler w2 ∧
      files w3 = files w2.
Proof.
  intros Hp Hen r w2 p2 Hb Hp2 Hst.
  rewrite (time_enter_enabled self w p) in Hb by done. cbn [snd] in Hb.
  eexists. split; [|split_and!].
  - eapply time_unfold.
    + by apply time_enter_enabled.
    + exact Hb.
    + by eapply time_exit_timing.
  - done.
  - done.
  - done.
Qed.

Lemma work_appends {A} self (work : M A) :
  keeps_recorder self work → appends_names self work (λ _, []).
Proof.
  intros Hk w p Hp Hen. exists p, [].
  rewrite Hk, app_nil_r. by split_and!.
Qed.

Lemma time_appends {A} self name md (body : M A) names :
  appends_names self body names →
  appends_names self (Profiler.time self name md body)
    (λ stack, names (stack ++ [name]) ++ [join " > " (stack ++ [name])])%list.
Proof.
  intros Hb w p Hp Hen.
  pose proof (time_enter_enabled self w p name md Hp Hen) as He.
  set (w1 := (Profiler.time_enter self name md w).2).
  destruct (Hb w1 (mkProfiler true (records p) (_stack p ++ [name])))
    as (p2 & rs & Hp2 & Hen2 & Hst2 & Hrs & Hnames).
  { unfold w1. rewrite He. cbn. apply lookup_insert_eq. }
  { done. }
  cbn in Hst2, Hrs, Hnames.
  destruct (body w1) as [r w2] eqn:Eb. cbn [snd] in Hp2.
  destruct (time_enabled self name md body w p Hp Hen r w2 p2 Eb Hp2 Hst2)
    as (w3 & Hrun & Hheap & _).
  rewrite Hrun. cbn [snd]. rewrite Hheap, lookup_insert_eq.
  eexists _, (rs ++ [_])%list. split_and!; try done.
  - cbn. by rewrite Hrs, app_assoc.
  - by rewrite map_app, Hnames.
Qed.

Lemma checkpoint_enabled self name md w p :
  heap w !! self = Some p →
  enabled p = true →
  Profiler.checkpoint self name md w =
    (Ok tt,
     mkWorld
       (<[self := mkProfiler (enabled p)
                    (records p ++
                     [mkTimingRecord ("CHECKPOINT: " ++ name)
                        (clock w (reads w)) (clock w (S (reads w)))
                        0%float md])
                    (_stack p)]> (heap w))
       (_global_profiler w) (clock w) (S (S (reads w)))
       (stdout w ++ [CheckpointNotice name md]) (files w)).
Proof.
  intros Hp Hen.
  unfold Profiler.checkpoint. run.
  rewrite Hp, Hen. cbn. rewrite Hp. cbn. by rewrite Hen.
Qed.

Lemma checkpoint_disabled self name md w p :
  heap w !! self = Some p →
  enabled p = false →
  Profiler.checkpoint self name md w = (Ok tt, w).
Proof.
  intros Hp Hen.
  unfold Profiler.checkpoint. run.
  by rewrite Hp, Hen.
Qed.

(** Blocks built from recorder calls leave the scope stack as they found
    it: scopes around such blocks, checkpoints, and sequences of them. *)
Lemma time_keeps_stack {A} self name md (body : M A) :
  keeps_stack self body → keeps_stack self (Profiler.time self name md body).
Proof.
  intros Hb w p Hp. destruct (enabled p) eqn:Hen.
  - pose proof (time_enter_enabled self w p name md Hp Hen) as He.
    destruct (Hb (Profiler.time_enter self name md w).2
                (mkProfiler true (records p) (_stack p ++ [name])))
      as (p2 & Hp2 & Hst2).
    { rewrite He. cbn. apply lookup_insert_eq. }
    cbn in Hst2.
    destruct (body (Profiler.time_enter self name md w).2) as [r w2] eqn:Eb.
    cbn [snd] in Hp2.
    destruct (time_enabled self name md body w p Hp Hen r w2 p2 Eb Hp2 Hst2)
      as (w3 & Hrun & Hheap & _).
    rewrite Hrun. cbn [snd]. rewrite Hheap, lookup_insert_eq. by eexists.
  - rewrite (time_disabled self name md body w p Hp Hen). by apply Hb.
Qed.

Lemma checkpoint_keeps_stack self name md :
  keeps_stack self (Profiler.checkpoint self name md).
Proof.
  intros w p Hp. destruct (enabled p) eqn:Hen.
  - rewrite (checkpoint_enabled self name md w p Hp Hen). cbn.
    rewrite lookup_insert_eq. by eexists.
  - rewrite (checkpoint_disabled self name md w p Hp Hen). by exists p.
Qed.

Lemma bind_keeps_stack {A B} self (a : M A) (k : A → M B) :
  keeps_stack self a → (∀ x, keeps_stack self (k x)) →
  keeps_stack self (a ≫= k).
Proof.
  intros Ha Hk w p Hp. destruct (Ha w p Hp) as (p1 & Hp1 & Hst1).
  unfold mbind, M_bind. destruct (a w) as [[x|e] w1]; cbn [snd] in Hp1.
  - destruct (Hk x w1 p1 Hp1) as (p2 & Hp2 & Hst2).
    exists p2. split; [done | congruence].
  - by exists p1.
Qed.

Lemma raise_keeps_stack {A} self e : keeps_stack self (raise (A := A) e).
Proof. intros w p Hp. by exists p. Qed.

(** ** Sequences of scoped-timing calls *)

Lemma replay_app self a b open w :
  replay self (a ++ b) open w =
    match replay self a open w with
    | (Ok open1, w1) => replay self b open1 w1
    | (Raise e, w1) => (Raise e, w1)
    end.
Proof.
  revert open w. induction a as [|ev a IH]; intros open w; [done|].
  destruct ev as [name md|f]; cbn [app replay].
  - unfold mbind, M_bind.
    destruct (Profiler.time_enter self name md w) as [[fr|e] w1]; [apply IH | done].
  - destruct open as [|fr open']; [apply IH|].
    unfold mbind, M_bind.
    destruct (Profiler.time_exit self fr w) as [[[]|e] w1]; [apply IH | done].
Qed.

Lemma depth_app d a b : depth d (a ++ b) = depth (depth d a) b.
Proof.
  revert d. induction a as [|[name md|f] a IH]; intros d; cbn; [done|apply IH..].
Qed.

Lemma paired_app d a b :
  paired d (a ++ b) = paired d a && paired (depth d a) b.
Proof.
  revert d. induction a as [|[name md|f] a IH]; intros d; cbn; [done|apply IH|].
  destruct d; [done | apply IH].
Qed.

(** Scopes that are already open stay out of the way of a properly paired
    sequence. *)
Lemma paired_deeper d k evs :
  paired d evs = true →
  paired (d + k) evs = true ∧ depth (d + k) evs = depth d evs + k.
Proof.
  revert d. induction evs as [|[name md|f] evs IH]; intros d H; cbn in *.
  - done.
  - apply (IH (S d) H).
  - destruct d as [|d]; [done|]. apply (IH d H).
Qed.

(** The invariant of a properly paired sequence, run with the recorder
    enabled: the scope stack is what it was ([base]) followed by one name
    per scope the sequence has open ([tracked]); every exit finds its name
    on top and appends one record. *)
Lemma replay_invariant self evs :
  ∀ tracked others w p base names,
    heap w !! self = Some p →
    enabled p = true →
    _stack p = (base ++ names)%list →
    length names = length tracked →
    Forall (λ fr, fr ≠ Passthrough) tracked →
    paired (length tracked) evs = true →
    ∃ tracked' w' p' names',
      replay self evs (tracked ++ others)%list w = (Ok (tracked' ++ others)%list, w') ∧
      heap w' !! self = Some p' ∧
      enabled p' = true ∧
      _stack p' = (base ++ names')%list ∧
      length names' = length tracked' ∧
      Forall (λ fr, fr ≠ Passthrough) tracked' ∧
      length tracked' = depth (length tracked) evs ∧
      length (records p') + depth (length tracked) evs =
        length (records p) + length tracked + entered evs.
Proof.
  induction evs as [|[name md|f] evs IH];
    intros tracked others w p base names Hp Hen Hst Hlen Hfr Hpair.
  - exists tracked, w, p, names. cbn. split_and!; first [done | lia].
  - cbn [replay paired depth entered] in *.
    unfold mbind, M_bind. rewrite (time_enter_enabled self w p) by done.
    set (w1 := mkWorld _ _ _ _ _ _).
    destruct (IH (Timing (join " > " (_stack p ++ [name])) (clock w (reads w)) md
                  :: tracked) others w1
                (mkProfiler true (records p) (_stack p ++ [name]))
                base (names ++ [name])%list)
      as (tracked' & w' & p' & names' & Hrun & Hp' & Hen' & Hst' & Hlen' & Hfr'
          & Hd & Hrec).
    + apply lookup_insert_eq.
    + done.
    + cbn. by rewrite Hst, app_assoc.
    + rewrite length_app. cbn. lia.
    + by constructor.
    + done.
    + exists tracked', w', p', names'. cbn in Hrec.
      split_and!; first [done | lia].
  - cbn [replay paired depth entered] in *.
    destruct tracked as [|fr tracked]; [done|].
    cbn [length Nat.pred] in *.
    apply Forall_cons in Hfr as [Hfr0 Hfr].
    destruct fr as [|full_name start md]; [done|].
    destruct names as [|x names0 _] using rev_ind; [done|].
    rewrite length_app in Hlen. cbn in Hlen.
    rewrite app_assoc in Hst.
    cbn [app]. unfold mbind, M_bind.
    rewrite (time_exit_timing self w p (base ++ names0) x) by done.
    cbv zeta.
    set (rec := mkTimingRecord _ _ _ _ _).
    set (w1 := mkWorld _ _ _ _ _ _).
    destruct (IH tracked others w1
                (mkProfiler (enabled p) (records p ++ [rec]) (base ++ names0))
                base names0)
      as (tracked' & w' & p' & names' & Hrun & Hp' & Hen' & Hst' & Hlen' & Hfr'
          & Hd & Hrec).
    + apply lookup_insert_eq.
    + done.
    + done.
    + lia.
    + done.
    + done.
    + exists tracked', w', p', names'. cbn in Hrec.
      rewrite length_app in Hrec. cbn in Hrec.
      split_and!; first [done | lia].
Qed.

(** ** Summary rendering *)

Lemma total_time_skip pre r post :
  is_checkpoint r = true →
  Profiler.total_time (pre ++ r :: post) = Profiler.total_time (pre ++ post).
Proof.
  intros Hr. unfold Profiler.total_time.
  rewrite !List.filter_app. cbn [List.filter]. by rewrite Hr.
Qed.

Lemma by_operation_skip pre r post :
  is_checkpoint r = true →
  Profiler.by_operation (pre ++ r :: post) = Profiler.by_operation (pre ++ post).
Proof.
  intros Hr. unfold Profiler.by_operation.
  rewrite !fold_left_app. cbn [fold_left].
  unfold Profiler.by_operation_step at 2. by rewrite Hr.
Qed.

Lemma slowest_skip pre r post :
  is_checkpoint r = true →
  Profiler.slowest (pre ++ r :: post) = Profiler.slowest (pre ++ post).
Proof.
  intros Hr. unfold Profiler.slowest.
  rewrite !List.filter_app. cbn [List.filter]. by rewrite Hr.
Qed.

Lemma insert_by_In {A} (key : A → float) x y l :
  In y (insert_by key x l) → y = x ∨ In y l.
Proof.
  induction l as [|z l IH]; cbn.
  - intros [<-|[]]. by left.
  - destruct (key x <? key z)%float; cbn; intros H.
    + destruct H as [<-|H]; [by left | by right].
    + destruct H as [<-|H]; [right; by left|].
      destruct (IH H) as [->|H']; [by left | right; by right].
Qed.

Lemma sorted_In {A} (key : A → float) y l : In y (sorted key l) → In y l.
Proof.
  unfold sorted. intros H.
  assert (G : ∀ acc, In y (fold_left (λ acc x, insert_by key x acc) l acc) →
                     In y acc ∨ In y l).
  { clear H. induction l as [|x l IH]; intros acc H; cbn in *; [by left|].
    destruct (IH _ H) as [H'|H']; [|right; by right].
    destruct (insert_by_In _ _ _ _ H') as [->|H'']; [right; by left | by left]. }
  destruct (G [] H) as [[]|H']. done.
Qed.

Lemma slowest_not_checkpoint r rs :
  In r (Profiler.slowest rs) → is_checkpoint r = false.
Proof.
  unfold Profiler.slowest. intros H.
  assert (H' : In r (List.filter (λ r, negb (is_checkpoint r)) rs)).
  { eapply sorted_In. apply list_elem_of_In.
    apply (subseteq_take 10), list_elem_of_In, H. }
  apply List.filter_In in H' as [_ H']. by destruct (is_checkpoint r).
Qed.

Lemma durations_skip pre r post :
  is_checkpoint r = true →
  Profiler.durations_by_operation (pre ++ r :: post) =
    Profiler.durations_by_operation (pre ++ post).
Proof.
  intros Hr. unfold Profiler.durations_by_operation.
  rewrite !fold_left_app. cbn [fold_left].
  unfold Profiler.durations_step at 2. by rewrite Hr.
Qed.

Lemma stats_of_records_skip pre r post :
  is_checkpoint r = true →
  Profiler.stats_of_records (pre ++ r :: post) =
    Profiler.stats_of_records (pre ++ post).
Proof.
  intros Hr. unfold Profiler.stats_of_records.
  destruct pre as [|a pre]; cbn [app].
  - pose proof (durations_skip [] r post Hr) as Hd. cbn [app] in Hd.
    rewrite Hd. by destruct post.
  - pose proof (durations_skip (a :: pre) r post Hr) as Hd. cbn [app] in Hd.
    by rewrite Hd.
Qed.

Lemma print_all_run ls w :
  Profiler.print_all ls w =
    (Ok tt,
     mkWorld (heap w) (_global_profiler w) (clock w) (reads w)
       (stdout w ++ ls) (files w)).
Proof.
  revert w. induction ls as [|l ls IH]; intros w; cbn [Profiler.print_all].
  - unfold mret, M_ret. rewrite app_nil_r. by destruct w.
  - unfold mbind, M_bind, print. rewrite IH. cbn. by rewrite <- app_assoc.
Qed.

Lemma print_summary_run self top_n w p r rs :
  heap w !! self = Some p →
  records p = r :: rs →
  Profiler.print_summary self top_n w =
    (Ok tt,
     mkWorld (heap w) (_global_profiler w) (clock w) (reads w)
       (stdout w ++ Profiler.summary_lines top_n (r :: rs)) (files w)).
Proof.
  intros Hp Hrs. unfold Profiler.print_summary. run.
  rewrite Hp, Hrs. apply print_all_run.
Qed.

Lemma checkpoint_row_listed top_n r rs :
  In r rs →
  is_checkpoint r = true →
  In (CheckpointRow (name r) (metadata r)) (Profiler.summary_lines top_n rs).
Proof.
  intros Hin Hr. unfold Profiler.summary_lines.
  assert (Hcp : In r (Profiler.checkpoints rs)).
  { apply List.filter_In. by split. }
  rewrite !in_app_iff. right. right. right. right. left.
  destruct (Profiler.checkpoints rs) as [|c cps]; [done|].
  right. apply (in_map (λ cp, CheckpointRow (name cp) (metadata cp))), Hcp.
Qed.

(** ** The singleton *)

Lemma fresh_unused (w : World) : heap w !! fresh (dom (heap w)) = None.
Proof. apply not_elem_of_dom, is_fresh. Qed.

Lemma get_profiler_first w :
  _global_profiler w = None →
  get_profiler w =
    (Ok (fresh (dom (heap w))),
     mkWorld (<[fresh (dom (heap w)) := mkProfiler true [] []]> (heap w))
       (Some (fresh (dom (heap w)))) (clock w) (reads w) (stdout w) (files w)).
Proof.
  intros Hg.
  unfold get_profiler, Profiler.__init__. run.
  by rewrite Hg.
Qed.

Lemma get_profiler_again w l :
  _global_profiler w = Some l → get_profiler w = (Ok l, w).
Proof.
  intros Hg. unfold get_profiler. run.
  by rewrite Hg.
Qed.

(** * The recorder's contract *)

(** C1: with the recorder enabled, three properly nested scopes A, B, C
    around any work that leaves the recorder alone store, as qualified
    names, the " > "-join of the scope stack at entry with the new name:
    "A", "A > B" and "A > B > C" when the stack was empty; the records are
    appended in completion order, C's, then B's, then A's. *)
Theorem nested_scope_names {X} self w p A B C mdA mdB mdC (work : M X) :
  heap w !! self = Some p →
  enabled p = true →
  keeps_recorder self work →
  ∃ r w' p' rC rB rA,
    Profiler.time self A mdA
      (Profiler.time self B mdB (Profiler.time self C mdC work)) w = (r, w') ∧
    heap w' !! self = Some p' ∧
    records p' = (records p ++ [rC; rB; rA])%list ∧
    name rA = join " > " (_stack p ++ [A]) ∧
    name rB = join " > " ((_stack p ++ [A]) ++ [B]) ∧
    name rC = join " > " (((_stack p ++ [A]) ++ [B]) ++ [C]) ∧
    (_stack p = [] →
       name rA = A ∧ name rB = A ++ " > " ++ B ∧
       name rC = A ++ " > " ++ B ++ " > " ++ C) ∧
    _stack p' = _stack p.
Proof.
  intros Hp Hen Hwork.
  pose proof
    (time_appends self A mdA _ _
       (time_appends self B mdB _ _
          (time_appends self C mdC _ _ (work_appends self work Hwork)))) as H.
  destruct (H w p Hp Hen) as (p' & rs & Hp' & _ & Hst & Hrs & Hnames).
  cbn in Hnames.
  destruct rs as [|rC [|rB [|rA [|? ?]]]]; try done.
  inversion Hnames as [[HC HB HA]].
  destruct (Profiler.time self A mdA _ w) as [r w'] eqn:Erun.
  exists r, w', p', rC, rB, rA. split_and!; try done.
  intros Hempty. rewrite HA, HB, HC, Hempty. by split_and!.
Qed.

(** Three nested scopes on a new recorder. *)
Lemma nested_scope_names_example :
  ∃ r w' p',
    Profiler.time 1%positive "A" []
      (Profiler.time 1%positive "B" []
         (Profiler.time 1%positive "C" [] (mret tt)))
      (world_with (mkProfiler true [] []) false) = (r, w') ∧
    heap w' !! 1%positive = Some p' ∧
    map name (records p') = ["A > B > C"; "A > B"; "A"].
Proof.
  destruct (nested_scope_names 1%positive
              (world_with (mkProfiler true [] []) false)
              (mkProfiler true [] []) "A" "B" "C" [] [] [] (mret tt))
    as (r & w' & p' & rC & rB & rA & Hrun & Hp' & Hrs & _ & _ & _ & Hn & _).
  - reflexivity.
  - reflexivity.
  - intros w. reflexivity.
  - exists r, w', p'. split_and!; [exact Hrun | exact Hp' |].
    destruct (Hn eq_refl) as (HA & HB & HC).
    rewrite Hrs. cbn. by rewrite HA, HB, HC.
Defined.

(** C2: with the recorder enabled, when the block of a scope raises, and
    has left the scope stack as it found it, the same exception reaches the
    caller; before it does, exactly one record is appended, whose duration
    runs from the reading at entry to the reading at the failure, and the
    scope stack is back at what it was before the call. *)
Theorem failure_propagates_after_cleanup {X} self w p name md
    (body : M X) e w2 :
  heap w !! self = Some p →
  enabled p = true →
  keeps_stack self body →
  body (Profiler.time_enter self name md w).2 = (Raise e, w2) →
  ∃ p2 w' p' r,
    heap w2 !! self = Some p2 ∧
    Profiler.time self name md body w = (Raise e, w') ∧
    heap w' !! self = Some p' ∧
    records p' = (records p2 ++ [r])%list ∧
    r = scope_record (_stack p) name md (clock w (reads w)) (clock w2 (reads w2)) ∧
    duration r = (clock w2 (reads w2) - clock w (reads w))%float ∧
    _stack p' = _stack p.
Proof.
  intros Hp Hen Hbody Hraise.
  pose proof (time_enter_enabled self w p name md Hp Hen) as He.
  destruct (Hbody (Profiler.time_enter self name md w).2
              (mkProfiler true (records p) (_stack p ++ [name])))
    as (p2 & Hp2 & Hst2).
  { rewrite He. cbn. apply lookup_insert_eq. }
  rewrite Hraise in Hp2. cbn in Hp2, Hst2.
  destruct (time_enabled self name md body w p Hp Hen _ w2 p2 Hraise Hp2 Hst2)
    as (w' & Hrun & Hheap & _).
  set (r := scope_record (_stack p) name md (clock w (reads w))
              (clock w2 (reads w2))) in *.
  exists p2, w', (mkProfiler (enabled p2) (records p2 ++ [r]) (_stack p)), r.
  split_and!; try done.
  rewrite Hheap. apply lookup_insert_eq.
Qed.

(** A failure raised two scopes deep, after a checkpoint, below a scope
    that is already open: it reaches the caller through both scopes. *)
Lemma failure_propagates_example :
  ∃ w' p',
    Profiler.time 1%positive "job" []
      (Profiler.checkpoint 1%positive "begun" [];;
       Profiler.time 1%positive "step" [] (raise (A := unit) (Failure "boom")))
      (world_with (mkProfiler true [] ["outer"]) false)
    = (Raise (Failure "boom"), w') ∧
    heap w' !! 1%positive = Some p' ∧
    map name (records p')
      = ["CHECKPOINT: begun"; "outer > job > step"; "outer > job"] ∧
    _stack p' = ["outer"].
Proof.
  destruct (failure_propagates_after_cleanup 1%positive
              (world_with (mkProfiler true [] ["outer"]) false)
              (mkProfiler true [] ["outer"]) "job" []
              (Profiler.checkpoint 1%positive "begun" [];;
               Profiler.time 1%positive "step" []
                 (raise (A := unit) (Failure "boom")))
              (Failure "boom")
              ((Profiler.checkpoint 1%positive "begun" [];;
                Profiler.time 1%positive "step" []
                  (raise (A := unit) (Failure "boom")))
                 (Profiler.time_enter 1%positive "job" []
                    (world_with (mkProfiler true [] ["outer"]) false)).2).2)
    as (p2 & w' & p' & r & Hp2 & Hrun & Hp' & Hrs & Hr & _ & Hst).
  - reflexivity.
  - reflexivity.
  - apply bind_keeps_stack; [apply checkpoint_keeps_stack|].
    intros _. apply time_keeps_stack, raise_keeps_stack.
  - vm_compute. reflexivity.
  - exists w', p'. split_and!; [exact Hrun | exact Hp' | | exact Hst].
    rewrite Hrs, Hr. vm_compute in Hp2. inversion Hp2. reflexivity.
Defined.

(** C6: with the recorder disabled, a scoped-timing call is its block: the
    block runs in the state the call found, and its outcome and the state
    it leaves are the call's, so the call itself creates no record, moves no
    stack and raises nothing; a checkpoint call returns normally and
    changes nothing at all. *)
Theorem disabled_calls_are_noops {X} self w p name md (body : M X) :
  heap w !! self = Some p →
  enabled p = false →
  Profiler.time self name md body w = body w ∧
  Profiler.time_enter self name md w = (Ok Passthrough, w) ∧
  (∀ w2, Profiler.time_exit self Passthrough w2 = (Ok tt, w2)) ∧
  Profiler.checkpoint self name md w = (Ok tt, w).
Proof.
  intros Hp Hen. split_and!.
  - by eapply time_disabled.
  - by eapply time_enter_disabled.
  - done.
  - by eapply checkpoint_disabled.
Qed.

(** A disabled recorder: a failing block and a checkpoint leave the process
    as it was. *)
Lemma disabled_calls_example :
  Profiler.time 1%positive "job" [] (raise (A := unit) (Failure "boom"))
    (world_with (mkProfiler false [] []) false)
  = (Raise (Failure "boom"), world_with (mkProfiler false [] []) false) ∧
  Profiler.checkpoint 1%positive "mark" []
    (world_with (mkProfiler false [] []) false)
  = (Ok tt, world_with (mkProfiler false [] []) false).
Proof.
  destruct (disabled_calls_are_noops 1%positive
              (world_with (mkProfiler false [] []) false)
              (mkProfiler false [] []) "job" []
              (raise (A := unit) (Failure "boom")))
    as (Ht & _ & _ & _); [reflexivity | reflexivity |].
  destruct (disabled_calls_are_noops 1%positive
              (world_with (mkProfiler false [] []) false)
              (mkProfiler false [] []) "mark" [] (mret tt))
    as (_ & _ & _ & Hc); [reflexivity | reflexivity |].
  split; [exact Ht | exact Hc].
Defined.

Lemma entered_app a b : entered (a ++ b) = entered a + entered b.
Proof.
  induction a as [|[name md|f] a IH]; cbn; [done | by rewrite IH | done].
Qed.

(** C7: with the recorder enabled, along every properly paired sequence of
    scope entries and exits (an exit being normal or by failure), after
    every prefix the scope stack is longer than it was at the start by
    exactly the number of scopes that are open; when a scope exits, normally
    or by failure, the stack is again what it was before that scope was
    entered; and once all scopes are closed the stack is what it was at the
    start (empty if it was empty) and one record has been appended per scope
    entered. *)
Theorem paired_scopes_balance self w p evs :
  heap w !! self = Some p →
  enabled p = true →
  paired 0 evs = true →
  (∀ pre post, evs = (pre ++ post)%list →
     ∃ open w1 p1,
       replay self pre [] w = (Ok open, w1) ∧
       heap w1 !! self = Some p1 ∧
       length open = depth 0 pre ∧
       length (_stack p1) = length (_stack p) + depth 0 pre) ∧
  (∀ pre name md mid f post,
     evs = (pre ++ Enter name md :: mid ++ Exit f :: post)%list →
     paired 0 mid = true →
     depth 0 mid = 0 →
     ∃ open1 w1 p1 open2 w2 p2,
       replay self pre [] w = (Ok open1, w1) ∧
       heap w1 !! self = Some p1 ∧
       replay self (pre ++ Enter name md :: mid ++ [Exit f]) [] w
         = (Ok open2, w2) ∧
       heap w2 !! self = Some p2 ∧
       _stack p2 = _stack p1 ∧
       length (records p2) = length (records p1) + S (entered mid)) ∧
  (depth 0 evs = 0 →
     ∃ w' p',
       replay self evs [] w = (Ok [], w') ∧
       heap w' !! self = Some p' ∧
       length (records p') = length (records p) + entered evs ∧
       _stack p' = _stack p ∧
       (_stack p = [] → _stack p' = [])).
Proof.
  intros Hp Hen Hpair.
  assert (Hprefix : ∀ pre post, evs = (pre ++ post)%list →
            ∃ open w1 p1 names,
              replay self pre [] w = (Ok open, w1) ∧
              heap w1 !! self = Some p1 ∧
              enabled p1 = true ∧
              _stack p1 = (_stack p ++ names)%list ∧
              length names = length open ∧
              length open = depth 0 pre ∧
              length (records p1) + depth 0 pre =
                length (records p) + entered pre).
  { intros pre post ->. rewrite paired_app in Hpair.
    apply andb_true_iff in Hpair as [Hpre _].
    destruct (replay_invariant self pre [] [] w p (_stack p) [])
      as (open & w1 & p1 & names & Hrun & Hp1 & Hen1 & Hst1 & Hlen & _ & Hd & Hrec);
      try done.
    { by rewrite app_nil_r. }
    cbn [app] in Hrun. rewrite app_nil_r in Hrun. cbn in Hd, Hrec.
    exists open, w1, p1, names. split_and!; first [done | lia]. }
  split_and!.
  - intros pre post Hsplit.
    destruct (Hprefix pre post Hsplit)
      as (open & w1 & p1 & names & Hrun & Hp1 & _ & Hst1 & Hlen & Hd & _).
    exists open, w1, p1. split_and!; try done.
    rewrite Hst1, length_app. lia.
  - intros pre name md mid f post Hsplit Hmid Hmid0.
    destruct (Hprefix pre _ Hsplit)
      as (open1 & w1 & p1 & names & Hrun1 & Hp1 & Hen1 & _).
    destruct (paired_deeper 0 1 mid Hmid) as [Hmid1 Hd1].
    rewrite Hmid0 in Hd1. cbn in Hmid1, Hd1.
    destruct (replay_invariant self (Enter name md :: mid ++ [Exit f])
                [] open1 w1 p1 (_stack p1) [])
      as (tracked & w2 & p2 & names2 & Hrun2 & Hp2 & _ & Hst2 & Hlen2 & _
          & Hd2 & Hrec2); try done.
    { by rewrite app_nil_r. }
    { cbn. by rewrite paired_app, Hmid1, Hd1. }
    cbn [length depth] in Hd2, Hrec2.
    rewrite depth_app, Hd1 in Hd2, Hrec2. cbn in Hd2, Hrec2.
    rewrite entered_app in Hrec2. cbn in Hrec2.
    destruct tracked; [|done]. destruct names2; [|done].
    rewrite app_nil_r in Hst2. cbn in Hrun2.
    exists open1, w1, p1, open1, w2, p2. split_and!; try done.
    + by rewrite replay_app, Hrun1.
    + lia.
  - intros Hd0.
    destruct (Hprefix evs [])
      as (open & w' & p' & names & Hrun & Hp' & _ & Hst & Hlen & Hd & Hrec).
    { by rewrite app_nil_r. }
    rewrite Hd0 in Hd, Hrec.
    destruct open; [|done]. destruct names; [|done].
    rewrite app_nil_r in Hst.
    exists w', p'. split_and!; try done; [lia | by rewrite Hst].
Qed.

(** Two nested scopes, the inner one left by a failure. *)
Lemma paired_scopes_example :
  ∃ w' p',
    replay 1%positive
      [Enter "A" []; Enter "B" []; Exit (Some (Failure "boom")); Exit None] []
      (world_with (mkProfiler true [] []) false) = (Ok [], w') ∧
    heap w' !! 1%positive = Some p' ∧
    length (records p') = 2 ∧
    _stack p' = [].
Proof.
  destruct (paired_scopes_balance 1%positive
              (world_with (mkProfiler true [] []) false)
              (mkProfiler true [] [])
              [Enter "A" []; Enter "B" []; Exit (Some (Failure "boom")); Exit None])
    as (_ & _ & Hend); [reflexivity | reflexivity | reflexivity |].
  destruct (Hend eq_refl) as (w' & p' & Hrun & Hp' & Hrec & Hst & _).
  exists w', p'. split_and!; [exact Hrun | exact Hp' | exact Hrec | exact Hst].
Defined.

(** C3: what [checkpoint] does on an enabled recorder when two readings of
    the clock in a row differ: it appends one record named
    "CHECKPOINT: " + name with duration 0 and leaves the scope stack alone,
    but it reads the clock once for [start_time] and once more for
    [end_time], so the two differ, and [duration] is not their difference. *)
Theorem checkpoint_reads_clock_twice :
  ∃ w' p' r,
    Profiler.checkpoint 1%positive "batch_1_complete" [("codes_processed", PInt 25)]
      (mkWorld {[1%positive := mkProfiler true [] ["fetch"]]} None
         microsecond_clock 0 [] ∅) = (Ok tt, w') ∧
    heap w' !! 1%positive = Some p' ∧
    records p' = [r] ∧
    _stack p' = ["fetch"] ∧
    name r = "CHECKPOINT: batch_1_complete" ∧
    duration r = 0%float ∧
    start_time r = microsecond_clock 0 ∧
    end_time r = microsecond_clock 1 ∧
    start_time r ≠ end_time r ∧
    (end_time r - start_time r)%float ≠ duration r.
Proof.
  eexists _, _, _. split_and!.
  - apply (checkpoint_enabled 1%positive _ _ _ (mkProfiler true [] ["fetch"]));
      reflexivity.
  - apply lookup_insert_eq.
  - reflexivity.
  - reflexivity.
  - reflexivity.
  - reflexivity.
  - reflexivity.
  - reflexivity.
  - cbn. intros H. apply (f_equal (PrimFloat.eqb (microsecond_clock 0))) in H.
    vm_compute in H. discriminate.
  - cbn. intros H. apply (f_equal (PrimFloat.eqb 0)) in H.
    vm_compute in H. discriminate.
Qed.

(** C4: statistics extraction returns a mapping whose keys are the top-level
    operation names (the part of the qualified name before the first " > ")
    of the records that are not excluded as checkpoints; each key maps to
    the total, count, average, minimum and maximum of its group's durations;
    records made by [checkpoint] are excluded; a record named
    "fetch > parse > json" counts in group "fetch" only; the three-record
    example gives {"op": {total 4.0, count 2, avg 2.0, min 1.0, max 3.0}};
    no records give the empty mapping. *)
Theorem get_stats_groups_by_top_level self w p :
  heap w !! self = Some p →
  ∃ stats,
    Profiler.get_stats self w = (Ok stats, w) ∧
    NoDup (map fst stats) ∧
    (∀ op,
       match group_durations op (records p) with
       | [] => dict_get op stats = None
       | g =>
           ∃ s, dict_get op stats = Some s ∧
             total s = py_sum g ∧
             count s = length g ∧
             avg s = (py_sum g / float_of_nat (length g))%float ∧
             py_min g = Ok (stat_min s) ∧
             py_max g = Ok (stat_max s)
       end) ∧
    (∀ r, top_level (name r) = before_first " > " (name r)) ∧
    (∀ n s e d m,
       is_checkpoint (mkTimingRecord ("CHECKPOINT: " ++ n) s e d m) = true) ∧
    (∀ r op pre post,
       name r = "fetch > parse > json" →
       group_durations op (pre ++ r :: post) =
         (group_durations op pre
          ++ (if String.eqb op "fetch" then [duration r] else [])
          ++ group_durations op post)%list) ∧
    (∀ s1 e1 m1 s2 e2 m2 s3 e3 m3,
       records p = [mkTimingRecord "op" s1 e1 1.0 m1;
                    mkTimingRecord "op" s2 e2 3.0 m2;
                    mkTimingRecord "CHECKPOINT: x" s3 e3 0.0 m3] →
       stats = [("op", mkStats 4.0 2 2.0 1.0 3.0)]) ∧
    (records p = [] → stats = []).
Proof.
  intros Hp.
  destruct (stats_of_records_spec (records p)) as (stats & Hrun & Hnd & Hget).
  exists stats. split_and!.
  - unfold Profiler.get_stats. run.
    by rewrite Hp, Hrun.
  - done.
  - intros op. rewrite Hget.
    destruct (group_durations op (records p)) as [|x rest]; [done|].
    eexists. split_and!; reflexivity.
  - intros r. apply top_level_before_first.
  - intros n s e d m. unfold is_checkpoint. cbn [name].
    apply contains_spec. by exists "", (": " ++ n).
  - intros r op pre post Hname. unfold group_durations.
    rewrite List.filter_app, map_app. cbn [List.filter]. rewrite Hname.
    assert (Hcp : is_checkpoint r = false) by (unfold is_checkpoint; by rewrite Hname).
    rewrite Hcp. cbn [negb andb].
    change (before_first " > " "fetch > parse > json") with "fetch".
    rewrite (String.eqb_sym op "fetch").
    by destruct (String.eqb "fetch" op).
  - intros s1 e1 m1 s2 e2 m2 s3 e3 m3 Hrs. rewrite Hrs in Hrun.
    vm_compute in Hrun. by inversion Hrun.
  - intros Hrs. rewrite Hrs in Hrun. by inversion Hrun.
Qed.

(** The example of the specification: two timings of "op" and a
    checkpoint. *)
Lemma get_stats_example :
  Profiler.get_stats 1%positive
    (world_with
       (mkProfiler true
          [mkTimingRecord "op" 0 1 1.0 [];
           mkTimingRecord "op" 1 4 3.0 [];
           mkTimingRecord "CHECKPOINT: x" 4 4 0.0 []] []) false)
  = (Ok [("op", mkStats 4.0 2 2.0 1.0 3.0)],
     world_with
       (mkProfiler true
          [mkTimingRecord "op" 0 1 1.0 [];
           mkTimingRecord "op" 1 4 3.0 [];
           mkTimingRecord "CHECKPOINT: x" 4 4 0.0 []] []) false).
Proof.
  destruct (get_stats_groups_by_top_level 1%positive
              (world_with
                 (mkProfiler true
                    [mkTimingRecord "op" 0 1 1.0 [];
                     mkTimingRecord "op" 1 4 3.0 [];
                     mkTimingRecord "CHECKPOINT: x" 4 4 0.0 []] []) false)
              (mkProfiler true
                 [mkTimingRecord "op" 0 1 1.0 [];
                  mkTimingRecord "op" 1 4 3.0 [];
                  mkTimingRecord "CHECKPOINT: x" 4 4 0.0 []] []))
    as (stats & Hrun & _ & _ & _ & _ & _ & Hex & _); [reflexivity|].
  rewrite Hrun. f_equal. f_equal. apply (Hex 0 1 [] 1 4 [] 4 4 [])%float.
  reflexivity.
Defined.

(** The dictionary forms of the records: all of them, each at its record's
    position, or the exception of the first record whose timestamps
    [fromtimestamp] rejects. *)
Lemma to_dict_fields round isoformat r d :
  Profiler.to_dict round isoformat r = Ok d →
  ∃ start end_,
    isoformat (start_time r) = Ok start ∧
    isoformat (end_time r) = Ok end_ ∧
    d = PDict [("name", PStr (name r));
               ("start_time", PStr start);
               ("end_time", PStr end_);
               ("duration_seconds", PFloat (round (duration r) 3%Z));
               ("metadata", PDict (metadata r))].
Proof.
  unfold Profiler.to_dict, mbind, result_bind, mret, result_ret.
  destruct (isoformat (start_time r)) as [start|e]; [|done].
  destruct (isoformat (end_time r)) as [end_|e]; [|done].
  intros H. injection H as <-. by exists start, end_.
Qed.

Lemma to_dict_all_ok round isoformat rs ds :
  Profiler.to_dict_all round isoformat rs = Ok ds →
  length ds = length rs ∧
  ∀ (i : nat) r, rs !! i = Some r →
    ∃ d, ds !! i = Some d ∧ Profiler.to_dict round isoformat r = Ok d.
Proof.
  revert ds. induction rs as [|r0 rs IH]; intros ds; cbn [Profiler.to_dict_all].
  - intros H. injection H as <-. split; [done|]. intros i r Hi. done.
  - unfold mbind, result_bind, mret, result_ret.
    destruct (Profiler.to_dict round isoformat r0) as [d0|e] eqn:E0; [|done].
    destruct (Profiler.to_dict_all round isoformat rs) as [ds0|e]; [|done].
    intros H. injection H as <-. destruct (IH ds0 eq_refl) as [Hlen Hget].
    split; [cbn; by rewrite Hlen|].
    intros [|i] r Hi; cbn in Hi.
    + injection Hi as <-. by exists d0.
    + by apply Hget.
Qed.

Lemma to_dict_all_raise round isoformat rs e :
  Profiler.to_dict_all round isoformat rs = Raise e →
  ∃ (i : nat) r,
    rs !! i = Some r ∧
    Profiler.to_dict round isoformat r = Raise e ∧
    ∀ (j : nat) r', (j < i)%nat → rs !! j = Some r' →
      ∃ d, Profiler.to_dict round isoformat r' = Ok d.
Proof.
  induction rs as [|r0 rs IH]; cbn [Profiler.to_dict_all]; [done|].
  unfold mbind, result_bind, mret, result_ret.
  destruct (Profiler.to_dict round isoformat r0) as [d0|e0] eqn:E0.
  - destruct (Profiler.to_dict_all round isoformat rs) as [ds0|e1]; [done|].
    intros H. injection H as ->.
    destruct (IH eq_refl) as (i & r & Hi & Hr & Hbefore).
    exists (S i), r. split_and!; [done | done |].
    intros [|j] r' Hj Hr'; cbn in Hr'.
    + injection Hr' as <-. by exists d0.
    + apply (Hbefore j); [lia | done].
  - intros H. injection H as ->. exists 0, r0. split_and!; [done | done |].
    intros j r' Hj. lia.
Qed.

(** C5: for every record list, JSON export builds the dictionary form of
    each record, in the order of the list, with the duration rounded to 3
    decimals, and an object whose [total_time] is the sum of the durations
    of all records, checkpoints included (the int 0 when there is none),
    whose [num_operations] is the number of records and whose [records] are
    those forms; it writes the serialisation of that object to the file and
    prints its notice.  It does so unless a library call fails: when
    [fromtimestamp] rejects a timestamp, [json.dumps] a value or the file
    system the path, the first such exception reaches the caller, and
    nothing is written or printed. *)
Theorem export_json_contents round isoformat float_sum json_dumps write_error
    self filepath w p :
  heap w !! self = Some p →
  match Profiler.to_dict_all round isoformat (records p) with
  | Raise e =>
      Profiler.export_json round isoformat float_sum json_dumps write_error
        self filepath w = (Raise e, w) ∧
      ∃ (i : nat) r,
        records p !! i = Some r ∧
        Profiler.to_dict round isoformat r = Raise e ∧
        ∀ (j : nat) r', (j < i)%nat → records p !! j = Some r' →
          ∃ d, Profiler.to_dict round isoformat r' = Ok d
  | Ok ds =>
      length ds = length (records p) ∧
      (∀ (i : nat) r, records p !! i = Some r →
         ∃ start end_,
           isoformat (start_time r) = Ok start ∧
           isoformat (end_time r) = Ok end_ ∧
           ds !! i =
             Some (PDict [("name", PStr (name r));
                          ("start_time", PStr start);
                          ("end_time", PStr end_);
                          ("duration_seconds", PFloat (round (duration r) 3%Z));
                          ("metadata", PDict (metadata r))])) ∧
      ∃ data,
        Profiler.export_data round isoformat float_sum (records p) = Ok data ∧
        pyval_get "total_time" data =
          Some (match records p with
                | [] => PInt 0
                | _ :: _ => PFloat (float_sum (map duration (records p)))
                end) ∧
        pyval_get "num_operations" data
          = Some (PInt (Z.of_nat (length (records p)))) ∧
        pyval_get "records" data = Some (PList ds) ∧
        match json_dumps data, write_error filepath with
        | Raise e, _ | Ok _, Some e =>
            Profiler.export_json round isoformat float_sum json_dumps
              write_error self filepath w = (Raise e, w)
        | Ok text, None =>
            Profiler.export_json round isoformat float_sum json_dumps
              write_error self filepath w =
              (Ok tt,
               mkWorld (heap w) (_global_profiler w) (clock w) (reads w)
                 (stdout w ++ [Exported filepath])
                 (<[filepath := text]> (files w)))
        end
  end.
Proof.
  intros Hp.
  destruct (Profiler.to_dict_all round isoformat (records p)) as [ds|e] eqn:Eall.
  - destruct (to_dict_all_ok _ _ _ _ Eall) as [Hlen Hget].
    split_and!; [done | |].
    + intros i r Hi. destruct (Hget i r Hi) as (d & Hd & Hr).
      destruct (to_dict_fields _ _ _ _ Hr) as (start & end_ & Hs & He & ->).
      by exists start, end_.
    + eexists. split_and!.
      * unfold Profiler.export_data, mbind, result_bind. rewrite Eall.
        reflexivity.
      * unfold Profiler.sum_durations. by destruct (records p).
      * reflexivity.
      * reflexivity.
      * unfold Profiler.export_json, Profiler.write_text. run.
        rewrite Hp. unfold Profiler.export_data, mbind, result_bind.
        rewrite Eall. cbn.
        destruct (json_dumps _) as [text|e]; [|done].
        by destruct (write_error filepath).
  - split.
    + unfold Profiler.export_json. run. rewrite Hp.
      unfold Profiler.export_data, mbind, result_bind. by rewrite Eall.
    + by apply to_dict_all_raise.
Qed.

(** An export of one timing and one checkpoint, and an export stopped by a
    timestamp that is not a number; stand-ins for the library functions. *)
Lemma export_json_example :
  (∃ w',
     Profiler.export_json (λ x _, x)
       (λ t, if PrimFloat.is_nan t then Raise ValueError
             else Ok "1970-01-01T00:00:00")
       py_sum (λ _, Ok "{}") (λ _, None) 1%positive "profile.json"
       (world_with
          (mkProfiler true
             [mkTimingRecord "op" 0 1 1.0 [];
              mkTimingRecord "CHECKPOINT: x" 1 1 0.0 []] []) false)
     = (Ok tt, w') ∧
     files w' !! "profile.json" = Some "{}") ∧
  Profiler.export_json (λ x _, x)
    (λ t, if PrimFloat.is_nan t then Raise ValueError
          else Ok "1970-01-01T00:00:00")
    py_sum (λ _, Ok "{}") (λ _, None) 1%positive "profile.json"
    (world_with
       (mkProfiler true [mkTimingRecord "op" PrimFloat.nan 1 1.0 []] []) false)
  = (Raise ValueError,
     world_with
       (mkProfiler true [mkTimingRecord "op" PrimFloat.nan 1 1.0 []] []) false).
Proof.
  split.
  - pose proof (export_json_contents (λ x _, x)
                  (λ t, if PrimFloat.is_nan t then Raise ValueError
                        else Ok "1970-01-01T00:00:00")
                  py_sum (λ _, Ok "{}") (λ _, None) 1%positive "profile.json"
                  (world_with
                     (mkProfiler true
                        [mkTimingRecord "op" 0 1 1.0 [];
                         mkTimingRecord "CHECKPOINT: x" 1 1 0.0 []] []) false)
                  (mkProfiler true
                     [mkTimingRecord "op" 0 1 1.0 [];
                      mkTimingRecord "CHECKPOINT: x" 1 1 0.0 []] [])
                  eq_refl) as H.
    cbn in H. destruct H as (_ & _ & data & _ & _ & _ & _ & Hrun).
    eexists. split; [exact Hrun|]. cbn. apply lookup_insert_eq.
  - pose proof (export_json_contents (λ x _, x)
                  (λ t, if PrimFloat.is_nan t then Raise ValueError
                        else Ok "1970-01-01T00:00:00")
                  py_sum (λ _, Ok "{}") (λ _, None) 1%positive "profile.json"
                  (world_with
                     (mkProfiler true
                        [mkTimingRecord "op" PrimFloat.nan 1 1.0 []] []) false)
                  (mkProfiler true
                     [mkTimingRecord "op" PrimFloat.nan 1 1.0 []] [])
                  eq_refl) as H.
    cbn in H. destruct H as [Hrun _]. exact Hrun.
Defined.

(** C8: the first access of the singleton constructs one recorder, enabled
    and empty, and later accesses return that same recorder;
    [enable_profiling] makes a new, enabled, empty recorder the singleton,
    so the records of the one before are no longer the singleton's;
    [disable_profiling] turns the [enabled] flag of the singleton off and
    leaves its records, and everything else, as they are. *)
Theorem singleton_lifecycle w :
  (_global_profiler w = None →
     ∃ l w',
       get_profiler w = (Ok l, w') ∧
       heap w !! l = None ∧
       heap w' = <[l := mkProfiler true [] []]> (heap w) ∧
       _global_profiler w' = Some l ∧
       get_profiler w' = (Ok l, w')) ∧
  (∃ l w',
     enable_profiling w = (Ok tt, w') ∧
     heap w !! l = None ∧
     heap w' = <[l := mkProfiler true [] []]> (heap w) ∧
     _global_profiler w' = Some l ∧
     get_profiler w' = (Ok l, w')) ∧
  (∀ l p,
     _global_profiler w = Some l →
     heap w !! l = Some p →
     ∃ w',
       disable_profiling w = (Ok tt, w') ∧
       _global_profiler w' = Some l ∧
       heap w' = <[l := mkProfiler false (records p) (_stack p)]> (heap w) ∧
       get_profiler w' = (Ok l, w')).
Proof.
  split_and!.
  - intros Hg. eexists _, _. split_and!.
    + by apply get_profiler_first.
    + apply fresh_unused.
    + reflexivity.
    + reflexivity.
    + by apply get_profiler_again.
  - eexists (fresh (dom (heap w))), _. split_and!.
    + reflexivity.
    + apply fresh_unused.
    + reflexivity.
    + reflexivity.
    + by apply get_profiler_again.
  - intros l p Hg Hp. eexists. split_and!.
    + unfold disable_profiling. run.
      rewrite Hg, Hp. reflexivity.
    + exact Hg.
    + reflexivity.
    + by apply get_profiler_again.
Qed.

(** The first access in a new process, and a disable that keeps the
    singleton's record. *)
Lemma singleton_lifecycle_example :
  (∃ l w', get_profiler fresh_world = (Ok l, w') ∧
     heap w' !! l = Some (mkProfiler true [] [])) ∧
  (∃ w', disable_profiling
           (world_with (mkProfiler true [mkTimingRecord "op" 0 1 1.0 []] []) true)
         = (Ok tt, w') ∧
     heap w' !! 1%positive
       = Some (mkProfiler false [mkTimingRecord "op" 0 1 1.0 []] [])).
Proof.
  split.
  - destruct (singleton_lifecycle fresh_world) as (Hfirst & _ & _).
    destruct (Hfirst eq_refl) as (l & w' & Hrun & _ & Hheap & _).
    exists l, w'. split; [exact Hrun|]. rewrite Hheap. apply lookup_insert_eq.
  - destruct (singleton_lifecycle
                (world_with (mkProfiler true [mkTimingRecord "op" 0 1 1.0 []] []) true))
      as (_ & _ & Hdis).
    destruct (Hdis 1%positive (mkProfiler true [mkTimingRecord "op" 0 1 1.0 []] [])
                eq_refl eq_refl) as (w' & Hrun & _ & Hheap & _).
    exists w'. split; [exact Hrun|]. rewrite Hheap. apply lookup_insert_eq.
Defined.

(** C9: a record whose name contains "CHECKPOINT" anywhere is left out of
    the grand total, of the per-operation aggregation and of the slowest
    records of the summary, and of the output of statistics extraction, all
    of which are what they would be without it; the summary lists it in its
    checkpoints section instead.  The test is made on any record: a timed
    scope named, say, "load_CHECKPOINT_file" is such a record, although its
    name does not start with "CHECKPOINT: ". *)
Theorem checkpoint_test_is_substring r pre post :
  contains "CHECKPOINT" (name r) = true →
  Profiler.total_time (pre ++ r :: post) = Profiler.total_time (pre ++ post) ∧
  Profiler.by_operation (pre ++ r :: post) = Profiler.by_operation (pre ++ post) ∧
  Profiler.slowest (pre ++ r :: post) = Profiler.slowest (pre ++ post) ∧
  ¬ In r (Profiler.slowest (pre ++ r :: post)) ∧
  Profiler.stats_of_records (pre ++ r :: post)
    = Profiler.stats_of_records (pre ++ post) ∧
  In r (Profiler.checkpoints (pre ++ r :: post)) ∧
  (∀ self w p top_n,
     heap w !! self = Some p →
     records p = (pre ++ r :: post)%list →
     Profiler.get_stats self w = (Profiler.stats_of_records (pre ++ post), w) ∧
     ∃ w',
       Profiler.print_summary self top_n w = (Ok tt, w') ∧
       In (CheckpointRow (name r) (metadata r)) (stdout w') ∧
       In (TotalTime (Profiler.total_time (pre ++ post))) (stdout w')) ∧
  (∀ md start end_,
     is_checkpoint (scope_record [] "load_CHECKPOINT_file" md start end_) = true ∧
     String.prefix "CHECKPOINT: "
       (name (scope_record [] "load_CHECKPOINT_file" md start end_)) = false).
Proof.
  intros Hr. change (is_checkpoint r = true) in Hr.
  assert (Hin : In r (pre ++ r :: post)).
  { apply in_app_iff. right. by left. }
  split_and!.
  - by apply total_time_skip.
  - by apply by_operation_skip.
  - by apply slowest_skip.
  - intros H. apply slowest_not_checkpoint in H. congruence.
  - by apply stats_of_records_skip.
  - apply List.filter_In. by split.
  - intros self w p top_n Hp Hrs. split.
    + unfold Profiler.get_stats. run.
      by rewrite Hp, Hrs, stats_of_records_skip.
    + destruct (pre ++ r :: post)%list as [|a l] eqn:E; [done|].
      rewrite (print_summary_run self top_n w p a l Hp Hrs).
      eexists. split; [reflexivity|]. cbn [stdout]. rewrite <- E.
      split; apply in_app_iff; right.
      * apply checkpoint_row_listed; [by rewrite E | done].
      * rewrite <- (total_time_skip pre r post Hr).
        unfold Profiler.summary_lines. right. by left.
  - intros md start end_. by split.
Qed.

(** A timed scope whose name happens to contain the marker is counted
    nowhere. *)
Lemma checkpoint_test_example :
  Profiler.stats_of_records
    [mkTimingRecord "load" 0 1 1.0 [];
     mkTimingRecord "load_CHECKPOINT_file" 1 3 2.0 []]
  = Ok [("load", mkStats 1.0 1 1.0 1.0 1.0)] ∧
  Profiler.total_time
    [mkTimingRecord "load" 0 1 1.0 [];
     mkTimingRecord "load_CHECKPOINT_file" 1 3 2.0 []] = 1.0%float.
Proof.
  destruct (checkpoint_test_is_substring
              (mkTimingRecord "load_CHECKPOINT_file" 1 3 2.0 [])
              [mkTimingRecord "load" 0 1 1.0 []] [])
    as (Htotal & _ & _ & _ & Hstats & _); [reflexivity|].
  cbn [app] in Hstats, Htotal.
  split; [rewrite Hstats | rewrite Htotal]; reflexivity.
Defined.

(** C10: [disable_profiling] called before the singleton exists does
    nothing: it constructs no recorder and leaves the process as it was; the
    next access constructs an enabled recorder, so a scope timed after the
    early call is recorded. *)
Theorem early_disable_has_no_effect {X} w scope md (body : M X) :
  _global_profiler w = None →
  (∀ l, keeps_recorder l body) →
  disable_profiling w = (Ok tt, w) ∧
  ∃ l w1,
    (disable_profiling;; get_profiler) w = (Ok l, w1) ∧
    heap w !! l = None ∧
    heap w1 !! l = Some (mkProfiler true [] []) ∧
    ∃ r w' rec,
      (disable_profiling;; time_block scope md body) w = (r, w') ∧
      heap w' !! l = Some (mkProfiler true [rec] []) ∧
      name rec = scope.
Proof.
  intros Hg Hbody.
  assert (Hdis : disable_profiling w = (Ok tt, w)).
  { unfold disable_profiling. run.
    by rewrite Hg. }
  split; [done|].
  pose proof (get_profiler_first w Hg) as Hget.
  set (l := fresh (dom (heap w))) in *.
  set (w1 := mkWorld _ _ _ _ _ _) in Hget.
  assert (Hl : heap w1 !! l = Some (mkProfiler true [] [])).
  { apply lookup_insert_eq. }
  exists l, w1. split_and!.
  - unfold mbind, M_bind at 1. by rewrite Hdis.
  - apply fresh_unused.
  - done.
  - destruct (time_appends l scope md body _ (work_appends l body (Hbody l))
                w1 _ Hl eq_refl)
      as (p' & rs & Hp' & Hen' & Hst' & Hrs & Hnames).
    cbn in Hst', Hrs, Hnames.
    destruct rs as [|rec [|? ?]]; try done. injection Hnames as Hname.
    destruct (Profiler.time l scope md body w1) as [r w'] eqn:Erun.
    exists r, w', rec. split_and!.
    + unfold time_block, mbind. unfold M_bind at 1. rewrite Hdis.
      unfold M_bind. by rewrite Hget, Erun.
    + cbn in Hp'. rewrite Hp'. f_equal. by destruct p'; simplify_eq/=.
    + done.
Qed.

(** Disabling in a new process, then timing a scope. *)
Lemma early_disable_example :
  disable_profiling fresh_world = (Ok tt, fresh_world) ∧
  ∃ l r w' rec,
    (disable_profiling;; time_block "job" [] (mret tt)) fresh_world = (r, w') ∧
    heap w' !! l = Some (mkProfiler true [rec] []) ∧
    name rec = "job".
Proof.
  destruct (early_disable_has_no_effect fresh_world "job" [] (mret tt))
    as (Hdis & l & w1 & _ & _ & _ & r & w' & rec & Hrun & Hp' & Hname).
  - reflexivity.
  - intros l w. reflexivity.
  - split; [exact Hdis|].
    exists l, r, w', rec. split_and!; [exact Hrun | exact Hp' | exact Hname].
Defined.

(** * Further properties of the recorder *)

(** ** Single calls *)

Lemma time_exit_empty self w p full_name start md :
  heap w !! self = Some p →
  _stack p = [] →
  Profiler.time_exit self (Timing full_name start md) w =
    (Raise IndexError,
     mkWorld
       (<[self := mkProfiler (enabled p)
                    (records p ++
                     [mkTimingRecord full_name start (clock w (reads w))
                        (clock w (reads w) - start)%float md])
                    []]> (heap w))
       (_global_profiler w) (clock w) (S (reads w)) (stdout w) (files w)).
Proof.
  intros Hp Hst. unfold Profiler.time_exit. run.
  simpl. rewrite Hp. simpl. rewrite lookup_insert_eq. simpl.
  by rewrite Hst.
Qed.

(** X1: on an enabled recorder a checkpoint appends exactly one record,
    named "CHECKPOINT: " + name whatever scopes are open, with duration 0
    and the given metadata, its two timestamps being two clock readings in
    a row; the record passes the checkpoint test of the summary; the scope
    stack, the flag, the singleton and the files are untouched, and one
    notice is printed. *)
Theorem checkpoint_appends_flat_marker self n md w p :
  heap w !! self = Some p →
  enabled p = true →
  ∃ w' r,
    Profiler.checkpoint self n md w = (Ok tt, w') ∧
    heap w' = <[self := mkProfiler true (records p ++ [r]) (_stack p)]> (heap w) ∧
    name r = "CHECKPOINT: " ++ n ∧
    duration r = 0%float ∧
    metadata r = md ∧
    start_time r = clock w (reads w) ∧
    end_time r = clock w (S (reads w)) ∧
    is_checkpoint r = true ∧
    reads w' = S (S (reads w)) ∧
    stdout w' = (stdout w ++ [CheckpointNotice n md])%list ∧
    _global_profiler w' = _global_profiler w ∧
    files w' = files w.
Proof.
  intros Hp Hen. eexists _, _. split_and!.
  - by apply checkpoint_enabled.
  - cbn. by rewrite Hen.
  - done.
  - done.
  - done.
  - done.
  - done.
  - unfold is_checkpoint. cbn [name]. apply contains_spec.
    by exists "", (": " ++ n).
  - done.
  - done.
  - done.
  - done.
Qed.

(** A checkpoint inside two open scopes. *)
Lemma checkpoint_appends_example :
  ∃ w' p',
    Profiler.checkpoint 1%positive "half" [("rows", PInt 10)]
      (world_with (mkProfiler true [] ["load"; "parse"]) false) = (Ok tt, w') ∧
    heap w' !! 1%positive = Some p' ∧
    map name (records p') = ["CHECKPOINT: half"] ∧
    _stack p' = ["load"; "parse"].
Proof.
  destruct (checkpoint_appends_flat_marker 1%positive "half" [("rows", PInt 10)]
              (world_with (mkProfiler true [] ["load"; "parse"]) false)
              (mkProfiler true [] ["load"; "parse"]))
    as (w' & r & Hrun & Hheap & Hname & _); [reflexivity | reflexivity |].
  exists w', (mkProfiler true [r] ["load"; "parse"]).
  split_and!; [exact Hrun | | |reflexivity].
  - rewrite Hheap. apply lookup_insert_eq.
  - cbn. by rewrite Hname.
Defined.

(** X2: an enabled scope around a block that ends with the scope's name on
    top of the stack hands on the block's outcome, whatever it is, reads the
    clock once at entry and once at exit, appends after the block's records
    one record running from the first reading to the second, pops its name,
    and prints a notice exactly when the duration is greater than 5.0; the
    flag the block leaves is kept. *)
Theorem time_records_scope {X} self n md (body : M X) w p r w2 p2 :
  heap w !! self = Some p →
  enabled p = true →
  body (Profiler.time_enter self n md w).2 = (r, w2) →
  heap w2 !! self = Some p2 →
  _stack p2 = (_stack p ++ [n])%list →
  ∃ w' rec,
    Profiler.time self n md body w = (r, w') ∧
    rec = scope_record (_stack p) n md (clock w (reads w)) (clock w2 (reads w2)) ∧
    heap w' =
      <[self := mkProfiler (enabled p2) (records p2 ++ [rec]) (_stack p)]>
        (heap w2) ∧
    reads (Profiler.time_enter self n md w).2 = S (reads w) ∧
    reads w' = S (reads w2) ∧
    stdout w' =
      (if (5.0 <? duration rec)%float
       then (stdout w2 ++ [SlowNotice (name rec) (duration rec) md])%list
       else stdout w2) ∧
    _global_profiler w' = _global_profiler w2 ∧
    files w' = files w2.
Proof.
  intros Hp Hen Hb Hp2 Hst.
  pose proof (time_enter_enabled self w p n md Hp Hen) as He.
  pose proof (time_exit_timing self w2 p2 (_stack p) n
                (join " > " (_stack p ++ [n])) (clock w (reads w)) md Hp2 Hst)
    as Hx. cbv zeta in Hx.
  eexists _, _. split_and!.
  - eapply time_unfold; [exact He | | exact Hx].
    by rewrite He in Hb.
  - reflexivity.
  - reflexivity.
  - by rewrite He.
  - reflexivity.
  - reflexivity.
  - reflexivity.
  - reflexivity.
Qed.

(** A scope that takes six seconds by the clock. *)
Lemma time_records_scope_example :
  ∃ w' p',
    Profiler.time 1%positive "slow" [] (time_time;; time_time;; time_time;;
                                        time_time;; time_time;; mret tt)
      (world_with (mkProfiler true [] []) false) = (Ok tt, w') ∧
    heap w' !! 1%positive = Some p' ∧
    map duration (records p') = [6%float] ∧
    stdout w' = [SlowNotice "slow" 6 []].
Proof.
  destruct (time_records_scope 1%positive "slow" []
              (time_time;; time_time;; time_time;; time_time;; time_time;; mret tt)
              (world_with (mkProfiler true [] []) false)
              (mkProfiler true [] []) (Ok tt)
              (mkWorld {[1%positive := mkProfiler true [] ["slow"]]} None
                 tick_clock 6 [] ∅)
              (mkProfiler true [] ["slow"]))
    as (w' & rec & Hrun & Hrec & Hheap & _ & _ & Hout & _);
    [reflexivity | reflexivity | reflexivity | reflexivity | reflexivity |].
  exists w', (mkProfiler true [rec] []).
  split_and!; [exact Hrun | | |].
  - rewrite Hheap. apply lookup_insert_eq.
  - rewrite Hrec. reflexivity.
  - rewrite Hout, Hrec. reflexivity.
Defined.

(** X3: a tracked function is the function inside a scope named after it,
    with no metadata.  With the recorder disabled the call is the function's
    own call; with it enabled, and a function that leaves the scope stack
    as it found it, the function's result or exception is returned as it is
    and the last record appended is the scope's. *)
Theorem track_is_transparent {A B} self fname (func : A → M B) args w p :
  heap w !! self = Some p →
  (enabled p = false →
     Profiler.track self fname func args w = func args w) ∧
  (enabled p = true →
     keeps_stack self (func args) →
     ∃ r w2 w' p' rec,
       func args (Profiler.time_enter self fname [] w).2 = (r, w2) ∧
       Profiler.track self fname func args w = (r, w') ∧
       heap w' !! self = Some p' ∧
       last (records p') = Some rec ∧
       name rec = join " > " (_stack p ++ [fname]) ∧
       metadata rec = [] ∧
       _stack p' = _stack p).
Proof.
  intros Hp. split.
  - intros Hen. unfold Profiler.track. by eapply time_disabled.
  - intros Hen Hfunc. unfold Profiler.track.
    pose proof (time_enter_enabled self w p fname [] Hp Hen) as He.
    destruct (Hfunc (Profiler.time_enter self fname [] w).2
                (mkProfiler true (records p) (_stack p ++ [fname])))
      as (p2 & Hp2 & Hst2).
    { rewrite He. cbn. apply lookup_insert_eq. }
    cbn in Hst2.
    destruct (func args (Profiler.time_enter self fname [] w).2)
      as [r w2] eqn:Eb. cbn [snd] in Hp2.
    destruct (time_enabled self fname [] (func args) w p Hp Hen r w2 p2 Eb Hp2 Hst2)
      as (w' & Hrun & Hheap & _).
    eexists r, w2, w', _, _. split_and!; [done | exact Hrun | | | | |].
    + rewrite Hheap. apply lookup_insert_eq.
    + cbn. apply last_snoc.
    + done.
    + done.
    + done.
Qed.

(** A tracked function that fails, on an enabled and on a disabled
    recorder. *)
Lemma track_is_transparent_example :
  (∃ w' p',
     Profiler.track 1%positive "fetch" (λ _ : unit, raise (A := nat) (Failure "down")) tt
       (world_with (mkProfiler true [] []) false) = (Raise (Failure "down"), w') ∧
     heap w' !! 1%positive = Some p' ∧
     map name (records p') = ["fetch"]) ∧
  Profiler.track 1%positive "fetch" (λ _ : unit, raise (A := nat) (Failure "down")) tt
    (world_with (mkProfiler false [] []) false)
  = (Raise (Failure "down"), world_with (mkProfiler false [] []) false).
Proof.
  split.
  - destruct (track_is_transparent 1%positive "fetch"
                (λ _ : unit, raise (A := nat) (Failure "down")) tt
                (world_with (mkProfiler true [] []) false)
                (mkProfiler true [] []) eq_refl) as [_ Hon].
    destruct (Hon eq_refl (raise_keeps_stack 1%positive (Failure "down")))
      as (r & w2 & w' & p' & rec & Hb & Hrun & Hp' & _).
    exists w', p'. vm_compute in Hb. inversion Hb; subst r w2.
    split_and!; [exact Hrun | exact Hp' |].
    vm_compute in Hrun. inversion Hrun; subst w'.
    vm_compute in Hp'. inversion Hp'. reflexivity.
  - destruct (track_is_transparent 1%positive "fetch"
                (λ _ : unit, raise (A := nat) (Failure "down")) tt
                (world_with (mkProfiler false [] []) false)
                (mkProfiler false [] []) eq_refl) as [Hoff _].
    exact (Hoff eq_refl).
Defined.

(** X4: if the block of an enabled scope leaves the scope stack empty, the
    exit still appends the scope's record, then [_stack.pop()] raises
    IndexError: that exception replaces the block's own outcome, be it a
    result or another exception, and no notice is printed. *)
Theorem emptied_stack_raises_IndexError {X} self n md (body : M X) w p r w2 p2 :
  heap w !! self = Some p →
  enabled p = true →
  body (Profiler.time_enter self n md w).2 = (r, w2) →
  heap w2 !! self = Some p2 →
  _stack p2 = [] →
  ∃ w',
    Profiler.time self n md body w = (Raise IndexError, w') ∧
    heap w' =
      <[self := mkProfiler (enabled p2)
                  (records p2 ++
                   [scope_record (_stack p) n md (clock w (reads w))
                      (clock w2 (reads w2))])
                  []]> (heap w2) ∧
    stdout w' = stdout w2.
Proof.
  intros Hp Hen Hb Hp2 Hst.
  pose proof (time_enter_enabled self w p n md Hp Hen) as He.
  rewrite He in Hb. cbn [snd] in Hb.
  eexists. split_and!.
  - unfold Profiler.time, try_finally, mbind, M_bind.
    rewrite He, Hb.
    by rewrite (time_exit_empty self w2 p2 _ _ _ Hp2 Hst).
  - reflexivity.
  - reflexivity.
Qed.

(** A block that clears the stack and then fails: the caller sees
    IndexError. *)
Lemma emptied_stack_example :
  ∃ w',
    Profiler.time 1%positive "job" []
      (store 1%positive (mkProfiler true [] []);;
       raise (A := unit) (Failure "boom"))
      (world_with (mkProfiler true [] []) false) = (Raise IndexError, w').
Proof.
  destruct (emptied_stack_raises_IndexError 1%positive "job" []
              (store 1%positive (mkProfiler true [] []);;
               raise (A := unit) (Failure "boom"))
              (world_with (mkProfiler true [] []) false)
              (mkProfiler true [] []) (Raise (Failure "boom"))
              (mkWorld {[1%positive := mkProfiler true [] []]} None
                 tick_clock 1 [] ∅)
              (mkProfiler true [] []))
    as (w' & Hrun & _);
    [reflexivity | reflexivity | reflexivity | reflexivity | reflexivity |].
  by exists w'.
Defined.

(** X5: the exit of a scope pops the name on top of the stack, whichever
    scope is exiting.  When A is entered, then B, and A's context manager is
    exited first (as code that calls [__enter__] and [__exit__] by hand can
    do), B's name is popped and A's stays: a scope C entered next is
    recorded as nested in A, although A is closed and B is open. *)
Theorem out_of_order_exit_pops_wrong_name self a b c mda mdb mdc w p :
  heap w !! self = Some p →
  enabled p = true →
  ∃ fra frb w3 p3 rec start,
    (fa ← Profiler.time_enter self a mda;
     fb ← Profiler.time_enter self b mdb;
     Profiler.time_exit self fa;;
     mret (fa, fb)) w = (Ok (fra, frb), w3) ∧
    heap w3 !! self = Some p3 ∧
    records p3 = (records p ++ [rec])%list ∧
    name rec = join " > " (_stack p ++ [a]) ∧
    _stack p3 = (_stack p ++ [a])%list ∧
    (Profiler.time_enter self c mdc w3).1
      = Ok (Timing (join " > " ((_stack p ++ [a]) ++ [c])) start mdc).
Proof.
  intros Hp Hen.
  pose proof (time_enter_enabled self w p a mda Hp Hen) as Ha.
  set (w1 := mkWorld _ _ _ _ _ _) in Ha.
  set (p1 := mkProfiler true (records p) (_stack p ++ [a])).
  assert (Hp1 : heap w1 !! self = Some p1) by apply lookup_insert_eq.
  pose proof (time_enter_enabled self w1 p1 b mdb Hp1 eq_refl) as Hb.
  set (w2 := mkWorld _ _ _ _ _ _) in Hb.
  set (p2 := mkProfiler true (records p1) (_stack p1 ++ [b])) in *.
  assert (Hp2 : heap w2 !! self = Some p2) by apply lookup_insert_eq.
  pose proof (time_exit_timing self w2 p2 (_stack p1) b
                (join " > " (_stack p ++ [a])) (clock w (reads w)) mda Hp2 eq_refl)
    as Hx. cbv zeta in Hx.
  set (w3 := mkWorld _ _ _ _ _ _) in Hx.
  set (p3 := mkProfiler (enabled p2) _ (_stack p1)) in *.
  assert (Hp3 : heap w3 !! self = Some p3) by apply lookup_insert_eq.
  eexists _, _, w3, p3, _, _. split_and!.
  - unfold mbind, M_bind, mret, M_ret. by rewrite Ha, Hb, Hx.
  - exact Hp3.
  - reflexivity.
  - reflexivity.
  - reflexivity.
  - by rewrite (time_enter_enabled self w3 p3 c mdc Hp3 eq_refl).
Qed.

(** A entered, B entered, A exited, C entered. *)
Lemma out_of_order_exit_example :
  ∃ fra frb w3 start,
    (fa ← Profiler.time_enter 1%positive "A" [];
     fb ← Profiler.time_enter 1%positive "B" [];
     Profiler.time_exit 1%positive fa;;
     mret (fa, fb)) (world_with (mkProfiler true [] []) false)
    = (Ok (fra, frb), w3) ∧
    (Profiler.time_enter 1%positive "C" [] w3).1 = Ok (Timing "A > C" start []).
Proof.
  destruct (out_of_order_exit_pops_wrong_name 1%positive "A" "B" "C" [] [] []
              (world_with (mkProfiler true [] []) false)
              (mkProfiler true [] []))
    as (fra & frb & w3 & p3 & rec & start & Hrun & _ & _ & _ & _ & Hc);
    [reflexivity | reflexivity |].
  exists fra, frb, w3, start. split; [exact Hrun | exact Hc].
Defined.

(** ** The singleton and the scopes that are open *)

Lemma disable_profiling_some w l p :
  _global_profiler w = Some l →
  heap w !! l = Some p →
  disable_profiling w =
    (Ok tt, set_heap (insert l (mkProfiler false (records p) (_stack p))) w).
Proof.
  intros Hg Hp. unfold disable_profiling. run.
  rewrite Hg. cbn. rewrite Hp. by rewrite Hg.
Qed.

Lemma enable_profiling_run w :
  enable_profiling w =
    (Ok tt,
     mkWorld (<[fresh (dom (heap w)) := mkProfiler true [] []]> (heap w))
       (Some (fresh (dom (heap w)))) (clock w) (reads w) (stdout w) (files w)).
Proof. reflexivity. Qed.

(** X6: the [enabled] flag is read when a scope is entered, not when it is
    left: if [disable_profiling] is called inside a scope of the enabled
    singleton, the scope is still recorded and its name popped at exit,
    and the singleton is left disabled. *)
Theorem disable_inside_scope_still_records n md w l p :
  _global_profiler w = Some l →
  heap w !! l = Some p →
  enabled p = true →
  ∃ w' rec,
    time_block n md disable_profiling w = (Ok tt, w') ∧
    heap w' = <[l := mkProfiler false (records p ++ [rec]) (_stack p)]> (heap w) ∧
    name rec = join " > " (_stack p ++ [n]) ∧
    metadata rec = md ∧
    _global_profiler w' = Some l.
Proof.
  intros Hg Hp Hen.
  pose proof (time_enter_enabled l w p n md Hp Hen) as He.
  set (w1 := mkWorld _ _ _ _ _ _) in He.
  set (p1 := mkProfiler true (records p) (_stack p ++ [n])).
  assert (Hp1 : heap w1 !! l = Some p1) by apply lookup_insert_eq.
  pose proof (disable_profiling_some w1 l p1 Hg Hp1) as Hd.
  set (w2 := set_heap _ w1) in Hd.
  destruct (time_enabled l n md disable_profiling w p Hp Hen (Ok tt) w2
              (mkProfiler false (records p) (_stack p ++ [n])))
    as (w' & Hrun & Hheap & Hglob & _).
  { by rewrite He. }
  { apply lookup_insert_eq. }
  { done. }
  eexists w', _. split_and!.
  - unfold time_block, mbind, M_bind. by rewrite (get_profiler_again w l Hg).
  - rewrite Hheap. unfold w2, w1. cbn. by rewrite !insert_insert_eq.
  - reflexivity.
  - reflexivity.
  - by rewrite Hglob.
Qed.

(** Disabling inside the only scope of a process. *)
Lemma disable_inside_scope_example :
  ∃ w' p',
    time_block "job" [] disable_profiling
      (world_with (mkProfiler true [] []) true) = (Ok tt, w') ∧
    heap w' !! 1%positive = Some p' ∧
    enabled p' = false ∧
    map name (records p') = ["job"].
Proof.
  destruct (disable_inside_scope_still_records "job" []
              (world_with (mkProfiler true [] []) true) 1%positive
              (mkProfiler true [] []))
    as (w' & rec & Hrun & Hheap & Hname & _);
    [reflexivity | reflexivity | reflexivity |].
  exists w', (mkProfiler false [rec] []). split_and!.
  - exact Hrun.
  - rewrite Hheap. apply lookup_insert_eq.
  - reflexivity.
  - cbn. by rewrite Hname.
Defined.

(** X7: [enable_profiling] called inside an open scope of the singleton
    replaces the singleton while the scope still holds the old recorder: at
    exit the scope's record is appended to the old recorder, and the new
    singleton, a different object, has no record and no open scope. *)
Theorem enable_inside_scope_records_to_old n md w l p :
  _global_profiler w = Some l →
  heap w !! l = Some p →
  enabled p = true →
  ∃ w' l' rec,
    time_block n md enable_profiling w = (Ok tt, w') ∧
    l' ≠ l ∧
    heap w !! l' = None ∧
    _global_profiler w' = Some l' ∧
    heap w' !! l' = Some (mkProfiler true [] []) ∧
    heap w' !! l = Some (mkProfiler true (records p ++ [rec]) (_stack p)) ∧
    name rec = join " > " (_stack p ++ [n]).
Proof.
  intros Hg Hp Hen.
  pose proof (time_enter_enabled l w p n md Hp Hen) as He.
  set (w1 := mkWorld _ _ _ _ _ _) in He.
  set (p1 := mkProfiler true (records p) (_stack p ++ [n])).
  set (l' := fresh (dom (heap w1))).
  assert (Hfresh : heap w1 !! l' = None) by apply fresh_unused.
  assert (Hne : l' ≠ l).
  { intros ->. unfold w1 in Hfresh. cbn in Hfresh.
    by rewrite lookup_insert_eq in Hfresh. }
  assert (Hold : heap w !! l' = None).
  { unfold w1 in Hfresh. cbn in Hfresh.
    by rewrite lookup_insert_ne in Hfresh. }
  pose proof (enable_profiling_run w1) as Hrun1. fold l' in Hrun1.
  set (w2 := mkWorld _ _ _ _ _ _) in Hrun1.
  destruct (time_enabled l n md enable_profiling w p Hp Hen (Ok tt) w2 p1)
    as (w' & Hrun & Hheap & Hglob & _).
  { by rewrite He. }
  { unfold w2. cbn. rewrite lookup_insert_ne by done. apply lookup_insert_eq. }
  { done. }
  eexists w', l', _. split_and!.
  - unfold time_block, mbind, M_bind. by rewrite (get_profiler_again w l Hg).
  - exact Hne.
  - exact Hold.
  - by rewrite Hglob.
  - rewrite Hheap, lookup_insert_ne by done. unfold w2. cbn.
    apply lookup_insert_eq.
  - rewrite Hheap. apply lookup_insert_eq.
  - reflexivity.
Qed.

(** Re-enabling inside a scope: the scope's record stays with the first
    recorder. *)
Lemma enable_inside_scope_example :
  ∃ w' l',
    time_block "job" [] enable_profiling
      (world_with (mkProfiler true [] []) true) = (Ok tt, w') ∧
    _global_profiler w' = Some l' ∧
    heap w' !! l' = Some (mkProfiler true [] []) ∧
    (∃ p', heap w' !! 1%positive = Some p' ∧ map name (records p') = ["job"]).
Proof.
  destruct (enable_inside_scope_records_to_old "job" []
              (world_with (mkProfiler true [] []) true) 1%positive
              (mkProfiler true [] []))
    as (w' & l' & rec & Hrun & _ & _ & Hg & Hnew & Hold & Hname);
    [reflexivity | reflexivity | reflexivity |].
  exists w', l'. split_and!; [exact Hrun | exact Hg | exact Hnew |].
  eexists. split; [exact Hold|]. cbn. by rewrite Hname.
Defined.



(** ** Reporting *)

(** X9: the three reporting methods change neither a recorder, the
    singleton nor the clock.  [get_stats] returns and changes nothing at
    all; [print_summary] returns and only prints: the single no-data line
    when there is no record, lines from the banner to the footer otherwise;
    [export_json], when it returns, has only written the one file and
    printed its notice, and when it raises has written and printed
    nothing. *)
Theorem reporting_is_read_only round isoformat float_sum json_dumps
    write_error self top_n filepath w p :
  heap w !! self = Some p →
  (∃ stats,
     Profiler.get_stats self w = (Ok stats, w) ∧
     (records p = [] → stats = [])) ∧
  (∃ lines,
     Profiler.print_summary self top_n w =
       (Ok tt,
        mkWorld (heap w) (_global_profiler w) (clock w) (reads w)
          (stdout w ++ lines) (files w)) ∧
     (records p = [] → lines = [NoData]) ∧
     (records p ≠ [] → ∃ body, lines = (Banner :: body ++ [Footer])%list)) ∧
  (∃ r w',
     Profiler.export_json round isoformat float_sum json_dumps write_error
       self filepath w = (r, w') ∧
     heap w' = heap w ∧
     _global_profiler w' = _global_profiler w ∧
     clock w' = clock w ∧
     reads w' = reads w ∧
     match r with
     | Ok _ =>
         stdout w' = (stdout w ++ [Exported filepath])%list ∧
         ∃ text, files w' = <[filepath := text]> (files w)
     | Raise _ => w' = w
     end).
Proof.
  intros Hp. split_and!.
  - destruct (stats_of_records_spec (records p)) as (stats & Hrun & _).
    exists stats. split.
    + unfold Profiler.get_stats. run. by rewrite Hp, Hrun.
    + intros Hrs. rewrite Hrs in Hrun. by inversion Hrun.
  - destruct (records p) as [|r rs] eqn:Hrs.
    + exists [NoData]. split_and!; [|done|done].
      unfold Profiler.print_summary. run. by rewrite Hp, Hrs.
    + exists (Profiler.summary_lines top_n (r :: rs)). split_and!; [|done|].
      * by apply (print_summary_run self top_n w p r rs).
      * intros _.
        exists ([TotalTime (Profiler.total_time (r :: rs)); OperationHeader]
                ++ map (Profiler.operation_row (Profiler.total_time (r :: rs)))
                     (slice_to top_n (Profiler.sorted_ops (r :: rs)))
                ++ [SlowestHeader]
                ++ map Profiler.slowest_row (Profiler.slowest (r :: rs))
                ++ match Profiler.checkpoints (r :: rs) with
                   | [] => []
                   | cps =>
                       CheckpointsHeader
                       :: map (λ cp, CheckpointRow (name cp) (metadata cp)) cps
                   end)%list.
        unfold Profiler.summary_lines. cbn [app]. do 3 f_equal.
        rewrite <- app_assoc. cbn [app]. by rewrite <- app_assoc.
  - unfold Profiler.export_json, Profiler.write_text. run. rewrite Hp.
    destruct (Profiler.export_data _ _ _ _) as [data|e]; cbn;
      [|by eexists _, _].
    destruct (json_dumps data) as [text|e]; cbn; [|by eexists _, _].
    destruct (write_error filepath) as [e|]; cbn; [by eexists _, _|].
    eexists _, _. split_and!; try reflexivity. cbn. split; [done|].
    by exists text.
Qed.

(** The summary of a recorder that has recorded nothing, and an export of
    it that the file system refuses. *)
Lemma reporting_is_read_only_example :
  Profiler.print_summary 1%positive 20 (world_with (mkProfiler true [] []) false)
  = (Ok tt,
     mkWorld {[1%positive := mkProfiler true [] []]} None tick_clock 0
       [NoData] ∅) ∧
  Profiler.export_json (λ x _, x) (λ _, Ok "1970-01-01T00:00:00") py_sum
    (λ _, Ok "{}") (λ _, Some (OSError "Permission denied")) 1%positive
    "out.json" (world_with (mkProfiler true [] []) false)
  = (Raise (OSError "Permission denied"),
     world_with (mkProfiler true [] []) false).
Proof.
  destruct (reporting_is_read_only (λ x _, x) (λ _, Ok "1970-01-01T00:00:00")
              py_sum (λ _, Ok "{}") (λ _, Some (OSError "Permission denied"))
              1%positive 20 "out.json"
              (world_with (mkProfiler true [] []) false)
              (mkProfiler true [] []) eq_refl)
    as (_ & (lines & Hrun & Hempty & _) & (r & w' & Hexp & _ & _ & _ & _ & Hr)).
  split.
  - rewrite Hrun, (Hempty eq_refl). reflexivity.
  - rewrite Hexp. vm_compute in Hexp. injection Hexp as <- <-. reflexivity.
Defined.

(** ** Nesting of any depth *)

Lemma nested_names_formula stack names :
  nested_names stack names =
    rev (map (λ k, join " > " (stack ++ take (S k) names))
           (seq 0 (length names))).
Proof.
  revert stack. induction names as [|n inner IH]; intros stack; [done|].
  cbn [nested_names length seq map]. rewrite IH. cbn [rev]. f_equal.
  f_equal. rewrite <- seq_shift, map_map.
  apply map_ext. intros k. cbn [take]. by rewrite <- app_assoc.
Qed.

Lemma nest_appends {X} self scopes (work : M X) :
  keeps_recorder self work →
  appends_names self (nest self scopes work)
    (λ stack, nested_names stack (map fst scopes)).
Proof.
  intros Hwork. induction scopes as [|[n md] inner IH]; cbn [nest map fst].
  - by apply work_appends.
  - apply (time_appends self n md _ _ IH).
Qed.

(** X10: with the recorder enabled, scopes nested to any depth around work
    that leaves the recorder alone append one record per scope, the
    innermost first; the scope at depth k is recorded under the join, with
    " > ", of the scope stack at the start and the names of the k outermost
    scopes; the scope stack ends as it started. *)
Theorem nested_scopes_of_any_depth {X} self scopes (work : M X) w p :
  heap w !! self = Some p →
  enabled p = true →
  keeps_recorder self work →
  ∃ r w' p' rs,
    nest self scopes work w = (r, w') ∧
    heap w' !! self = Some p' ∧
    records p' = (records p ++ rs)%list ∧
    length rs = length scopes ∧
    map name rs =
      rev (map (λ k, join " > " (_stack p ++ take (S k) (map fst scopes)))
             (seq 0 (length scopes))) ∧
    _stack p' = _stack p ∧
    enabled p' = true.
Proof.
  intros Hp Hen Hwork.
  destruct (nest_appends self scopes work Hwork w p Hp Hen)
    as (p' & rs & Hp' & Hen' & Hst & Hrs & Hnames).
  rewrite nested_names_formula, length_map in Hnames.
  destruct (nest self scopes work w) as [r w'] eqn:Erun.
  exists r, w', p', rs. split_and!; try done.
  apply (f_equal length) in Hnames.
  by rewrite length_rev, !length_map, length_seq in Hnames.
Qed.

(** Four scopes deep. *)
Lemma nested_scopes_example :
  ∃ r w' p',
    nest 1%positive [("a", []); ("b", []); ("c", []); ("d", [])] (mret tt)
      (world_with (mkProfiler true [] []) false) = (r, w') ∧
    heap w' !! 1%positive = Some p' ∧
    map name (records p') = ["a > b > c > d"; "a > b > c"; "a > b"; "a"].
Proof.
  destruct (nested_scopes_of_any_depth 1%positive
              [("a", []); ("b", []); ("c", []); ("d", [])] (mret tt)
              (world_with (mkProfiler true [] []) false)
              (mkProfiler true [] []))
    as (r & w' & p' & rs & Hrun & Hp' & Hrs & _ & Hnames & _);
    [reflexivity | reflexivity | intros w; reflexivity |].
  exists r, w', p'. split_and!; [exact Hrun | exact Hp' |].
  rewrite Hrs. exact Hnames.
Defined.

(** ** Qualified names and grouping *)

Ltac case_ascii :=
  match goal with
  | |- context [Ascii.ascii_dec ?a ?b] => destruct (Ascii.ascii_dec a b)
  end.

Lemma prefix_sep_false c t :
  String.prefix ">" t = false → String.prefix " > " (String c t) = false.
Proof.
  intros H. cbn [String.prefix]. case_ascii; [|done].
  destruct t as [|c' t]; [done|]. cbn [String.prefix] in *.
  case_ascii; [|done]. by destruct t.
Qed.

Lemma prefix_gt_false t :
  contains ">" t = false → String.prefix ">" t = false.
Proof.
  destruct t as [|c t]; [done|]. cbn [contains].
  intros H. by apply orb_false_iff in H as [Hc _].
Qed.

Lemma contains_gt_tail c t :
  contains ">" (String c t) = false → contains ">" t = false.
Proof.
  cbn [contains]. intros H. by apply orb_false_iff in H as [_ Ht].
Qed.

Lemma prefix_gt_append c t u :
  String.prefix ">" (String c t) = false →
  String.prefix ">" (String c t ++ u) = false.
Proof.
  rewrite append_cons. cbn [String.prefix].
  case_ascii; [by destruct t | done].
Qed.

Lemma before_first_no_gt a :
  contains ">" a = false → before_first " > " a = a.
Proof.
  induction a as [|c a IH]; intros H; [done|].
  pose proof (contains_gt_tail c a H) as Ha.
  cbn [before_first].
  rewrite (prefix_sep_false c a (prefix_gt_false a Ha)).
  by rewrite (IH Ha).
Qed.

Lemma before_first_prefix sep s :
  String.prefix sep s = true → before_first sep s = "".
Proof. intros H. destruct s; cbn [before_first]; by rewrite H. Qed.

Lemma before_first_join a rest :
  contains ">" a = false → before_first " > " (a ++ " > " ++ rest) = a.
Proof.
  induction a as [|c a IH]; intros H.
  { rewrite append_nil_l. apply before_first_prefix, prefix_append. }
  pose proof (contains_gt_tail c a H) as Ha.
  rewrite append_cons. cbn [before_first].
  rewrite prefix_sep_false, (IH Ha); [done|].
  destruct a as [|c' a].
  - rewrite append_nil_l, append_cons. cbn [String.prefix].
    case_ascii; [discriminate | done].
  - by apply prefix_gt_append, prefix_gt_false.
Qed.

(** X11: grouping undoes naming: the top-level name that [get_stats] and
    [print_summary] extract from the qualified name of a scope is the name
    of the outermost scope it was entered in, provided that name contains
    no '>'.  The proviso matters: below a scope named "x >" a scope "b" is
    recorded as "x > > b", which is grouped under "x". *)
Theorem top_level_of_qualified_name a inner :
  contains ">" a = false →
  top_level (join " > " (a :: inner)) = a ∧
  top_level (join " > " ["x >"; "b"]) = "x".
Proof.
  intros Ha. split; [|reflexivity].
  rewrite top_level_before_first.
  destruct inner as [|b inner]; cbn [join].
  - by apply before_first_no_gt.
  - by apply before_first_join.
Qed.

(** The key of a record three scopes deep. *)
Lemma top_level_of_qualified_name_example :
  top_level (join " > " ["fetch"; "parse"; "json"]) = "fetch".
Proof.
  destruct (top_level_of_qualified_name "fetch" ["parse"; "json"] eq_refl)
    as [H _].
  exact H.
Defined.

(** ** What timing calls never do *)

Lemma time_enter_keeps_records self n md w p :
  heap w !! self = Some p →
  ∃ p',
    heap (Profiler.time_enter self n md w).2 !! self = Some p' ∧
    records p' = records p ∧
    enabled p' = enabled p.
Proof.
  intros Hp. destruct (enabled p) eqn:Hen.
  - rewrite (time_enter_enabled self w p n md Hp Hen). cbn.
    rewrite lookup_insert_eq. by eexists.
  - rewrite (time_enter_disabled self w p n md Hp Hen). by exists p.
Qed.

Lemma exists_last_or_nil {A} (l : list A) :
  l = [] ∨ ∃ l' x, l = (l' ++ [x])%list.
Proof.
  induction l as [|x l' _] using rev_ind; [by left | right; by exists l', x].
Qed.

Lemma time_exit_appends self fr w p :
  heap w !! self = Some p →
  ∃ p' rs,
    heap (Profiler.time_exit self fr w).2 !! self = Some p' ∧
    records p' = (records p ++ rs)%list ∧
    (length rs ≤ 1)%nat ∧
    enabled p' = enabled p.
Proof.
  intros Hp. destruct fr as [|full_name start md].
  - exists p, []. rewrite app_nil_r.
    split_and!; [exact Hp | done | cbn; lia | done].
  - destruct (exists_last_or_nil (_stack p)) as [Hst|(stack & x & Hst)].
    + rewrite (time_exit_empty self w p _ _ _ Hp Hst). cbn.
      rewrite lookup_insert_eq. eexists _, [_].
      split_and!; [reflexivity | reflexivity | cbn; lia | reflexivity].
    + rewrite (time_exit_timing self w p stack x _ _ _ Hp Hst). cbn.
      rewrite lookup_insert_eq. eexists _, [_].
      split_and!; [reflexivity | reflexivity | cbn; lia | reflexivity].
Qed.

(** X12: entering and leaving scopes, in any order, paired or not, with the
    recorder enabled or not, and even when an exit raises, never removes,
    changes or reorders a record and never changes the [enabled] flag: the
    records after the calls are the records before them followed by at most
    one new record per call. *)
Theorem timing_only_appends self evs open w p :
  heap w !! self = Some p →
  ∃ p' rs,
    heap (replay self evs open w).2 !! self = Some p' ∧
    records p' = (records p ++ rs)%list ∧
    (length rs ≤ length evs)%nat ∧
    enabled p' = enabled p.
Proof.
  revert open w p. induction evs as [|[n md|f] evs IH]; intros open w p Hp.
  - exists p, []. rewrite app_nil_r. by split_and!.
  - cbn [replay]. unfold mbind, M_bind.
    destruct (time_enter_keeps_records self n md w p Hp) as (p1 & Hp1 & Hr1 & He1).
    destruct (Profiler.time_enter self n md w) as [[fr|e] w1]; cbn [snd] in Hp1.
    + destruct (IH (fr :: open) w1 p1 Hp1) as (p' & rs & Hp' & Hrs & Hlen & Hen).
      exists p', rs. cbn [length]. split_and!; [done | congruence | lia | congruence].
    + exists p1, []. rewrite app_nil_r. cbn [length].
      split_and!; [done | done | lia | done].
  - cbn [replay]. destruct open as [|fr open].
    + destruct (IH [] w p Hp) as (p' & rs & Hp' & Hrs & Hlen & Hen).
      exists p', rs. cbn [length]. split_and!; [done | done | lia | done].
    + unfold mbind, M_bind.
      destruct (time_exit_appends self fr w p Hp)
        as (p1 & rs1 & Hp1 & Hr1 & Hl1 & He1).
      destruct (Profiler.time_exit self fr w) as [[[]|e] w1]; cbn [snd] in Hp1.
      * destruct (IH open w1 p1 Hp1) as (p' & rs & Hp' & Hrs & Hlen & Hen).
        exists p', (rs1 ++ rs)%list. rewrite length_app. cbn [length].
        split_and!; [done | | lia | congruence].
        by rewrite Hrs, Hr1, app_assoc.
      * exists p1, rs1. cbn [length]. split_and!; [done | done | lia | done].
Qed.

(** An exit with no scope open and nothing on the stack. *)
Lemma timing_only_appends_example :
  ∃ p',
    heap (replay 1%positive [Enter "a" []; Exit None; Exit None]
            [Timing "stale" 0 []]
            (world_with (mkProfiler true [mkTimingRecord "old" 0 1 1 []] []) false)).2
      !! 1%positive = Some p' ∧
    take 1 (records p') = [mkTimingRecord "old" 0 1 1 []].
Proof.
  destruct (timing_only_appends 1%positive [Enter "a" []; Exit None; Exit None]
              [Timing "stale" 0 []]
              (world_with (mkProfiler true [mkTimingRecord "old" 0 1 1 []] []) false)
              (mkProfiler true [mkTimingRecord "old" 0 1 1 []] []) eq_refl)
    as (p' & rs & Hp' & Hrs & _).
  exists p'. split; [exact Hp'|]. rewrite Hrs. reflexivity.
Defined.

(** ** The per-operation table of the summary *)

Lemma by_operation_step_get d r op :
  dict_get op (Profiler.by_operation_step d r) =
    if negb (is_checkpoint r) && String.eqb (before_first " > " (name r)) op
    then
      Some (mkOpData
              (op_total (default (mkOpData 0 0 []) (dict_get op d)) + duration r)%float
              (S (op_count (default (mkOpData 0 0 []) (dict_get op d))))
              (op_records (default (mkOpData 0 0 []) (dict_get op d)) ++ [r]))
    else dict_get op d.
Proof.
  unfold Profiler.by_operation_step. rewrite top_level_before_first.
  destruct (is_checkpoint r); simpl; [done|].
  set (top := before_first " > " (name r)).
  destruct (String.eqb top op) eqn:E.
  - apply String.eqb_eq in E as <-. rewrite dict_get_alter_eq.
    unfold dict_contains. destruct (dict_get top d) eqn:G; simpl.
    + by rewrite G.
    + by rewrite dict_get_set_eq.
  - apply String.eqb_neq in E. rewrite dict_get_alter_ne by done.
    destruct (dict_contains top d); [done|]. by rewrite dict_get_set_ne.
Qed.

Lemma by_operation_fold_get rs d op :
  dict_get op (fold_left Profiler.by_operation_step rs d) =
    match group_records op rs with
    | [] => dict_get op d
    | g =>
        Some (mkOpData
                (fold_left PrimFloat.add (map duration g)
                   (op_total (default (mkOpData 0 0 []) (dict_get op d))))
                (op_count (default (mkOpData 0 0 []) (dict_get op d)) + length g)
                (op_records (default (mkOpData 0 0 []) (dict_get op d)) ++ g))
    end.
Proof.
  revert d. induction rs as [|r rs IH]; intros d; [done|].
  cbn [fold_left]. rewrite IH, by_operation_step_get.
  unfold group_records. cbn [List.filter].
  destruct (negb (is_checkpoint r) && String.eqb (before_first " > " (name r)) op).
  - destruct (List.filter _ rs) as [|r' g]; cbn.
    + by rewrite Nat.add_1_r.
    + f_equal. f_equal; [lia | by rewrite <- app_assoc].
  - done.
Qed.

Lemma by_operation_get rs op :
  dict_get op (Profiler.by_operation rs) =
    match group_records op rs with
    | [] => None
    | g => Some (mkOpData (py_sum (map duration g)) (length g) g)
    end.
Proof.
  unfold Profiler.by_operation. rewrite by_operation_fold_get.
  by destruct (group_records op rs).
Qed.

Lemma by_operation_NoDup rs : NoDup (map fst (Profiler.by_operation rs)).
Proof.
  unfold Profiler.by_operation.
  assert (G : ∀ d, NoDup (map fst d) →
                NoDup (map fst (fold_left Profiler.by_operation_step rs d))).
  { induction rs as [|r rs IH]; intros d Hd; [done|]. cbn [fold_left].
    apply IH. unfold Profiler.by_operation_step.
    destruct (is_checkpoint r); [done|]. rewrite dict_alter_keys.
    destruct (dict_contains _ d); [done | by apply dict_set_NoDup]. }
  apply G, NoDup_nil_2.
Qed.

(** X13: the per-operation table of the summary has the operations and the
    call counts of [get_stats].  The table has one entry per top-level
    name, holding the records of that group in order, their number, which
    is at least 1, and the total accumulated by adding their durations one
    after the other to 0.0; [get_stats] has a key exactly where the table
    has an entry, with the same count; and the row printed for an entry
    shows that total, that count and their quotient as the average, never
    the 0 kept for a count of 0. *)
Theorem summary_table_agrees_with_get_stats rs :
  ∃ stats,
    Profiler.stats_of_records rs = Ok stats ∧
    NoDup (map fst (Profiler.by_operation rs)) ∧
    ∀ op,
      (dict_get op (Profiler.by_operation rs) = None ↔ dict_get op stats = None) ∧
      ∀ data,
        dict_get op (Profiler.by_operation rs) = Some data →
        op_records data = group_records op rs ∧
        op_count data = length (op_records data) ∧
        (1 ≤ op_count data)%nat ∧
        op_total data
          = fold_left PrimFloat.add (map duration (op_records data)) 0%float ∧
        (∃ s, dict_get op stats = Some s ∧ count s = op_count data) ∧
        ∀ total_time, ∃ pct,
          Profiler.operation_row total_time (op, data)
            = OperationRow op (op_total data) (op_count data)
                (op_total data / float_of_nat (op_count data))%float pct.
Proof.
  destruct (stats_of_records_spec rs) as (stats & Hrun & _ & Hget).
  exists stats. split_and!; [done | apply by_operation_NoDup |].
  intros op. rewrite by_operation_get, Hget.
  change (group_durations op rs) with (map duration (group_records op rs)).
  destruct (group_records op rs) as [|r g] eqn:Hg; cbn [map].
  - split; [done|]. intros data H. discriminate.
  - split; [split; discriminate|].
    intros data H. injection H as <-. cbn [op_records op_count op_total].
    split_and!; [done | done | cbn [length]; lia | done | |].
    + eexists. split; [reflexivity|]. cbn [count length].
      by rewrite length_map.
    + intros total_time. eexists. unfold Profiler.operation_row.
      cbn [fst snd op_total op_count length]. reflexivity.
Qed.

(** ** The order and the size of the sections *)

Lemma insert_by_Permutation {A} (key : A → float) x l :
  insert_by key x l ≡ₚ x :: l.
Proof.
  induction l as [|y l IH]; cbn; [done|].
  destruct (key x <? key y)%float; [done|].
  rewrite IH. apply Permutation_swap.
Qed.

Lemma sorted_Permutation {A} (key : A → float) l : sorted key l ≡ₚ l.
Proof.
  unfold sorted.
  assert (G : ∀ acc, fold_left (λ acc x, insert_by key x acc) l acc ≡ₚ acc ++ l).
  { induction l as [|x l IH]; intros acc; cbn.
    - by rewrite app_nil_r.
    - rewrite IH, insert_by_Permutation. cbn. apply Permutation_middle. }
  apply (G []).
Qed.

Lemma slice_to_length {A} (n : Z) (l : list A) :
  length (slice_to n l) =
    if (0 <=? n)%Z then Nat.min (Z.to_nat n) (length l)
    else length l - Z.to_nat (- n).
Proof.
  unfold slice_to. destruct (0 <=? n)%Z; rewrite length_take; lia.
Qed.

Lemma filter_map_rows {A} (f : Line → bool) (g : A → Line) (b : bool) l :
  (∀ x, f (g x) = b) →
  List.filter f (map g l) = if b then map g l else [].
Proof.
  intros H. induction l as [|x l IH]; cbn; [by destruct b|].
  rewrite H, IH. by destruct b.
Qed.

(** X14: sorting for the summary loses and invents nothing, and the sizes
    of its sections follow from the records: the sorted table is a
    permutation of the table; the summary prints the first [top_n] rows of
    it, all rows when [top_n] is larger, and all but the last [-top_n] rows
    when [top_n] is negative; it prints the slowest records, at most 10,
    each a record that is not excluded as a checkpoint, and all of those
    when there are at most 10; and it prints one checkpoint row per record
    that is. *)
Theorem summary_section_sizes top_n rs :
  Profiler.sorted_ops rs ≡ₚ Profiler.by_operation rs ∧
  length (List.filter is_operation_row (Profiler.summary_lines top_n rs)) =
    (if (0 <=? top_n)%Z
     then Nat.min (Z.to_nat top_n) (length (Profiler.by_operation rs))
     else length (Profiler.by_operation rs) - Z.to_nat (- top_n)) ∧
  length (List.filter is_slowest_row (Profiler.summary_lines top_n rs)) =
    Nat.min 10 (length (List.filter (λ r, negb (is_checkpoint r)) rs)) ∧
  (∀ r, In r (Profiler.slowest rs) → In r rs ∧ is_checkpoint r = false) ∧
  ((length (List.filter (λ r, negb (is_checkpoint r)) rs) ≤ 10)%nat →
     Profiler.slowest rs ≡ₚ List.filter (λ r, negb (is_checkpoint r)) rs) ∧
  length (List.filter is_checkpoint_row (Profiler.summary_lines top_n rs)) =
    length (List.filter is_checkpoint rs).
Proof.
  assert (Hrows : ∀ f,
    List.filter f (Profiler.summary_lines top_n rs) =
      (List.filter f [Banner; TotalTime (Profiler.total_time rs); OperationHeader]
       ++ List.filter f (map (Profiler.operation_row (Profiler.total_time rs))
                           (slice_to top_n (Profiler.sorted_ops rs)))
       ++ List.filter f [SlowestHeader]
       ++ List.filter f (map Profiler.slowest_row (Profiler.slowest rs))
       ++ List.filter f
            (match Profiler.checkpoints rs with
             | [] => []
             | cps => CheckpointsHeader
                      :: map (λ cp, CheckpointRow (name cp) (metadata cp)) cps
             end)
       ++ List.filter f [Footer])%list).
  { intros f. unfold Profiler.summary_lines. by rewrite !List.filter_app. }
  assert (Hperm : Profiler.sorted_ops rs ≡ₚ Profiler.by_operation rs)
    by apply sorted_Permutation.
  split_and!.
  - exact Hperm.
  - rewrite Hrows.
    rewrite (filter_map_rows is_operation_row _ true) by done.
    rewrite (filter_map_rows is_operation_row _ false) by done.
    assert (Hcp : List.filter is_operation_row
              (match Profiler.checkpoints rs with
               | [] => []
               | cps => CheckpointsHeader
                        :: map (λ cp, CheckpointRow (name cp) (metadata cp)) cps
               end) = []).
    { destruct (Profiler.checkpoints rs) as [|c cps]; [done|].
      cbn [List.filter is_operation_row].
      by rewrite (filter_map_rows is_operation_row _ false). }
    rewrite Hcp. cbn. rewrite app_nil_r, length_map, slice_to_length.
    by rewrite (Permutation_length Hperm).
  - rewrite Hrows.
    rewrite (filter_map_rows is_slowest_row _ false) by done.
    rewrite (filter_map_rows is_slowest_row _ true) by done.
    assert (Hcp : List.filter is_slowest_row
              (match Profiler.checkpoints rs with
               | [] => []
               | cps => CheckpointsHeader
                        :: map (λ cp, CheckpointRow (name cp) (metadata cp)) cps
               end) = []).
    { destruct (Profiler.checkpoints rs) as [|c cps]; [done|].
      cbn [List.filter is_slowest_row].
      by rewrite (filter_map_rows is_slowest_row _ false). }
    rewrite Hcp. cbn. rewrite app_nil_r, length_map.
    unfold Profiler.slowest. rewrite length_take.
    by rewrite (Permutation_length (sorted_Permutation _ _)).
  - intros r Hr. split; [|by eapply slowest_not_checkpoint].
    unfold Profiler.slowest in Hr.
    apply list_elem_of_In, (subseteq_take 10), list_elem_of_In in Hr.
    apply sorted_In, List.filter_In in Hr. tauto.
  - intros Hle. unfold Profiler.slowest.
    rewrite take_ge; [apply sorted_Permutation|].
    by rewrite (Permutation_length (sorted_Permutation _ _)).
  - rewrite Hrows.
    rewrite (filter_map_rows is_checkpoint_row _ false) by done.
    rewrite (filter_map_rows is_checkpoint_row _ false) by done.
    cbn. unfold Profiler.checkpoints.
    destruct (List.filter is_checkpoint rs) as [|c cps]; [done|].
    cbn [List.filter is_checkpoint_row].
    rewrite (filter_map_rows is_checkpoint_row _ true) by done.
    rewrite app_nil_r. cbn [length]. by rewrite length_map.
Qed.

(** ** The order of floats *)

Ltac sf_cases :=
  repeat match goal with
  | s : bool |- _ => destruct s
  | |- context [Z.compare ?a ?b] => destruct (Z.compare_spec a b)
  | H : context [Z.compare ?a ?b] |- _ => destruct (Z.compare_spec a b)
  | |- context [Pos.compare_cont Eq ?a ?b] =>
      change (Pos.compare_cont Eq a b) with (Pos.compare a b);
      destruct (Pos.compare_spec a b)
  | H : context [Pos.compare_cont Eq ?a ?b] |- _ =>
      change (Pos.compare_cont Eq a b) with (Pos.compare a b) in H;
      destruct (Pos.compare_spec a b)
  end; cbn in *; try congruence; try lia.

Lemma SFltb_asym a b : SFltb a b = true → SFltb b a = false.
Proof.
  unfold SFltb, SFcompare. destruct a, b; cbn; try congruence; sf_cases.
Qed.

Lemma SFltb_trans a b c :
  SFltb a b = true → SFltb b c = true → SFltb a c = true.
Proof.
  unfold SFltb, SFcompare. destruct a, b, c; cbn; try congruence; sf_cases.
Qed.

Lemma SFltb_opp a b : SFltb (SFopp a) (SFopp b) = SFltb b a.
Proof.
  unfold SFltb, SFcompare, SFopp. destruct a, b; cbn; try congruence; sf_cases.
Qed.

(** [<] on floats is a strict order, NaN included, and negation turns it
    around. *)
Lemma ltb_asym (x y : float) : (x <? y)%float = true → (y <? x)%float = false.
Proof. rewrite !ltb_spec. apply SFltb_asym. Qed.

Lemma ltb_trans (x y z : float) :
  (x <? y)%float = true → (y <? z)%float = true → (x <? z)%float = true.
Proof. rewrite !ltb_spec. apply SFltb_trans. Qed.

Lemma ltb_opp (x y : float) : (- x <? - y)%float = (y <? x)%float.
Proof. rewrite !ltb_spec, !opp_spec. apply SFltb_opp. Qed.

(** ** Sorting *)

Lemma insert_by_order {A} (key : A → float) x l :
  in_key_order key l → in_key_order key (insert_by key x l).
Proof.
  induction l as [|y l IH]; cbn [insert_by in_key_order].
  - intros _. by split.
  - intros [Hy Hl]. destruct (key x <? key y)%float eqn:E.
    + cbn [in_key_order]. split_and!; [|done|done].
      constructor; [by apply ltb_asym|].
      eapply Forall_impl; [exact Hy|]. cbn. intros b Hb.
      destruct (key b <? key x)%float eqn:Eb; [|done].
      by rewrite (ltb_trans _ _ _ Eb E) in Hb.
    + cbn [in_key_order]. split; [|by apply IH].
      apply Forall_forall. intros b Hb.
      apply list_elem_of_In in Hb. apply insert_by_In in Hb.
      destruct Hb as [->|Hb]; [done|].
      rewrite Forall_forall in Hy. by apply Hy, list_elem_of_In.
Qed.

Lemma sorted_order {A} (key : A → float) l : in_key_order key (sorted key l).
Proof.
  unfold sorted.
  assert (G : ∀ acc, in_key_order key acc →
                in_key_order key (fold_left (λ acc x, insert_by key x acc) l acc)).
  { induction l as [|x l IH]; intros acc Hacc; cbn; [done|].
    by apply IH, insert_by_order. }
  by apply G.
Qed.

Lemma take_order {A} (key : A → float) n l :
  in_key_order key l → in_key_order key (take n l).
Proof.
  revert n. induction l as [|a l IH]; intros [|n]; cbn; try done.
  intros [Ha Hl]. split; [by apply Forall_take | by apply IH].
Qed.

Lemma slice_to_order {A} (key : A → float) n l :
  in_key_order key l → in_key_order key (slice_to n l).
Proof. unfold slice_to. destruct (0 <=? n)%Z; apply take_order. Qed.

Lemma in_key_order_lookup {A} (key : A → float) l (i j : nat) a b :
  in_key_order key l →
  (i < j)%nat → l !! i = Some a → l !! j = Some b →
  (key b <? key a)%float = false.
Proof.
  revert i j. induction l as [|c l IH]; intros i j Hord Hij Hi Hj; [done|].
  destruct Hord as [Hc Hl].
  destruct j as [|j]; [lia|]. cbn in Hj. destruct i as [|i].
  - cbn in Hi. injection Hi as ->. rewrite Forall_forall in Hc.
    apply Hc. by eapply list_elem_of_lookup_2.
  - cbn in Hi. apply (IH i j); [done | lia | done | done].
Qed.

Lemma SFleb_of_not_ltb a b :
  SFeqb a a = true → SFeqb b b = true →
  SFltb a b = false → SFleb b a = true.
Proof.
  unfold SFeqb, SFltb, SFleb, SFcompare.
  destruct a, b; cbn; try congruence; sf_cases.
Qed.

(** Where neither is NaN, [x < y] fails exactly when [y <= x] holds. *)
Lemma leb_of_not_ltb (x y : float) :
  PrimFloat.is_nan x = false → PrimFloat.is_nan y = false →
  (x <? y)%float = false → (y <=? x)%float = true.
Proof.
  unfold PrimFloat.is_nan.
  rewrite !FloatAxioms.eqb_spec, FloatAxioms.ltb_spec, FloatAxioms.leb_spec.
  intros Hx Hy. apply negb_false_iff in Hx. apply negb_false_iff in Hy.
  by apply SFleb_of_not_ltb.
Qed.

Lemma slice_to_lookup {A} (n : Z) (l : list A) (i : nat) a :
  slice_to n l !! i = Some a → l !! i = Some a.
Proof.
  unfold slice_to. destruct (0 <=? n)%Z; intros H;
    by apply lookup_take_Some in H as [H _].
Qed.

(** X15: where no total and no duration that is sorted is NaN, both sorted
    sections of the summary are in descending order: among the operation
    rows that are printed every row's total is at most that of each row
    above it, and among the slowest records every record's duration is at
    most that of each record above it.  (With a NaN among the keys the
    order that Python's sort leaves is not determined by [<], and nothing
    is stated.) *)
Theorem summary_sections_are_descending top_n rs :
  Forall (λ x, PrimFloat.is_nan (op_total (snd x)) = false)
    (Profiler.by_operation rs) →
  Forall (λ r, is_checkpoint r = false → PrimFloat.is_nan (duration r) = false)
    rs →
  (∀ (i j : nat) x y,
     (i < j)%nat →
     slice_to top_n (Profiler.sorted_ops rs) !! i = Some x →
     slice_to top_n (Profiler.sorted_ops rs) !! j = Some y →
     (op_total (snd x) <? op_total (snd y))%float = false ∧
     (op_total (snd y) <=? op_total (snd x))%float = true) ∧
  (∀ (i j : nat) a b,
     (i < j)%nat →
     Profiler.slowest rs !! i = Some a →
     Profiler.slowest rs !! j = Some b →
     (duration a <? duration b)%float = false ∧
     (duration b <=? duration a)%float = true).
Proof.
  intros Hops Hdur. rewrite Forall_forall in Hops. rewrite Forall_forall in Hdur.
  split.
  - intros i j x y Hij Hx Hy.
    pose proof (in_key_order_lookup (λ x, - op_total (snd x))%float
                  (slice_to top_n (Profiler.sorted_ops rs)) i j x y
                  (slice_to_order _ _ _ (sorted_order _ _)) Hij Hx Hy) as H.
    cbn beta in H. rewrite ltb_opp in H. split; [done|].
    assert (Hin : ∀ k z, slice_to top_n (Profiler.sorted_ops rs) !! k = Some z →
                    z ∈ Profiler.by_operation rs).
    { intros k z Hz. apply slice_to_lookup in Hz.
      apply list_elem_of_lookup_2 in Hz.
      unfold Profiler.sorted_ops in Hz. by rewrite sorted_Permutation in Hz. }
    apply leb_of_not_ltb; [apply Hops, (Hin i x Hx) | apply Hops, (Hin j y Hy) | done].
  - intros i j a b Hij Ha Hb.
    pose proof (in_key_order_lookup (λ x, - duration x)%float
                  (Profiler.slowest rs) i j a b
                  (take_order _ _ _ (sorted_order _ _)) Hij Ha Hb) as H.
    cbn beta in H. rewrite ltb_opp in H. split; [done|].
    assert (Hin : ∀ k z, Profiler.slowest rs !! k = Some z →
                    PrimFloat.is_nan (duration z) = false).
    { intros k z Hz. unfold Profiler.slowest in Hz.
      apply lookup_take_Some in Hz as [Hz _].
      apply list_elem_of_lookup_2 in Hz. rewrite sorted_Permutation in Hz.
      apply list_elem_of_In, filter_In in Hz as [Hz Hc].
      apply negb_true_iff in Hc. apply Hdur; [by apply list_elem_of_In | done]. }
    apply leb_of_not_ltb; [apply (Hin i a Ha) | apply (Hin j b Hb) | done].
Qed.

(** ** Minimum and maximum *)

Lemma ltb_irrefl (x : float) : (x <? x)%float = false.
Proof.
  destruct (x <? x)%float eqn:E; [|done].
  pose proof (ltb_asym x x E). congruence.
Qed.

Lemma fold_min_spec rest : ∀ m0 seen,
  In m0 seen →
  (∀ d, In d seen → (d <? m0)%float = false) →
  In (fold_left (λ m y, if (y <? m)%float then y else m) rest m0) (seen ++ rest)
  ∧ ∀ d, In d (seen ++ rest) →
      (d <? fold_left (λ m y, if (y <? m)%float then y else m) rest m0)%float
        = false.
Proof.
  induction rest as [|y rest IH]; intros m0 seen Hin Hlow; cbn [fold_left].
  - rewrite app_nil_r. by split.
  - replace (seen ++ y :: rest)%list with ((seen ++ [y]) ++ rest)%list
      by (by rewrite <- app_assoc).
    apply IH.
    + destruct (y <? m0)%float; apply in_app_iff; [right; by left | by left].
    + intros d Hd. apply in_app_iff in Hd as [Hd|[<-|[]]].
      * destruct (y <? m0)%float eqn:E; [|by apply Hlow].
        destruct (d <? y)%float eqn:Ed; [|done].
        pose proof (ltb_trans _ _ _ Ed E) as Ht.
        by rewrite (Hlow d Hd) in Ht.
      * destruct (y <? m0)%float eqn:E; [apply ltb_irrefl | done].
Qed.

Lemma fold_max_spec rest : ∀ m0 seen,
  In m0 seen →
  (∀ d, In d seen → (m0 <? d)%float = false) →
  In (fold_left (λ m y, if (m <? y)%float then y else m) rest m0) (seen ++ rest)
  ∧ ∀ d, In d (seen ++ rest) →
      (fold_left (λ m y, if (m <? y)%float then y else m) rest m0 <? d)%float
        = false.
Proof.
  induction rest as [|y rest IH]; intros m0 seen Hin Hup; cbn [fold_left].
  - rewrite app_nil_r. by split.
  - replace (seen ++ y :: rest)%list with ((seen ++ [y]) ++ rest)%list
      by (by rewrite <- app_assoc).
    apply IH.
    + destruct (m0 <? y)%float; apply in_app_iff; [right; by left | by left].
    + intros d Hd. apply in_app_iff in Hd as [Hd|[<-|[]]].
      * destruct (m0 <? y)%float eqn:E; [|by apply Hup].
        destruct (y <? d)%float eqn:Ed; [|done].
        pose proof (ltb_trans _ _ _ E Ed) as Ht.
        by rewrite (Hup d Hd) in Ht.
      * destruct (m0 <? y)%float eqn:E; [apply ltb_irrefl | done].
Qed.

(** X16: in the statistics of an operation the count is at least 1, the
    minimum and the maximum are durations of the group, no duration of the
    group is less than the minimum or greater than the maximum, and the
    maximum is not less than the minimum. *)
Theorem get_stats_min_max_are_extremal rs stats op s :
  Profiler.stats_of_records rs = Ok stats →
  dict_get op stats = Some s →
  (1 ≤ count s)%nat ∧
  count s = length (group_durations op rs) ∧
  In (stat_min s) (group_durations op rs) ∧
  In (stat_max s) (group_durations op rs) ∧
  (∀ d, In d (group_durations op rs) →
     (d <? stat_min s)%float = false ∧ (stat_max s <? d)%float = false) ∧
  (stat_max s <? stat_min s)%float = false.
Proof.
  intros Hrun Hs.
  destruct (stats_of_records_spec rs) as (stats' & Hrun' & _ & Hget).
  rewrite Hrun in Hrun'. injection Hrun' as <-.
  rewrite Hget in Hs.
  destruct (group_durations op rs) as [|x rest]; [done|].
  injection Hs as <-. cbn [count stat_min stat_max].
  destruct (fold_min_spec rest x [x]) as [Hmin Hlow];
    [by left | by intros d [<-|[]]; apply ltb_irrefl |].
  destruct (fold_max_spec rest x [x]) as [Hmax Hup];
    [by left | by intros d [<-|[]]; apply ltb_irrefl |].
  cbn [app] in *.
  split_and!; [cbn; lia | done | done | done | | by apply Hup].
  intros d Hd. split; [by apply Hlow | by apply Hup].
Qed.

(** The statistics of three timings of one operation. *)
Lemma get_stats_min_max_example :
  ∃ s,
    Profiler.stats_of_records
      [mkTimingRecord "op" 0 2 2.0 []; mkTimingRecord "op > sub" 0 1 0.5 [];
       mkTimingRecord "op" 2 5 3.0 []] = Ok [("op", s)] ∧
    stat_min s = 0.5%float ∧ stat_max s = 3.0%float ∧
    (stat_max s <? stat_min s)%float = false.
Proof.
  destruct (get_stats_min_max_are_extremal
              [mkTimingRecord "op" 0 2 2.0 []; mkTimingRecord "op > sub" 0 1 0.5 [];
               mkTimingRecord "op" 2 5 3.0 []]
              [("op", mkStats 5.5 3 (5.5 / 3) 0.5 3.0)] "op"
              (mkStats 5.5 3 (5.5 / 3) 0.5 3.0))
    as (_ & _ & _ & _ & _ & Hord); [reflexivity | reflexivity |].
  exists (mkStats 5.5 3 (5.5 / 3) 0.5 3.0).
  split_and!; [reflexivity | reflexivity | reflexivity | exact Hord].
Defined.

(** ** Examples of the summary *)

(** Two timings under "op" and a checkpoint: the table's entry and the
    statistics carry the same count, and the row shows the total 4.0 and
    the average 2.0. *)
Lemma summary_table_example :
  ∃ data s stats pct,
    dict_get "op"
      (Profiler.by_operation
         [mkTimingRecord "op" 0 1 1.0 []; mkTimingRecord "op > sub" 1 4 3.0 [];
          mkTimingRecord "CHECKPOINT: x" 4 4 0.0 []]) = Some data ∧
    Profiler.stats_of_records
      [mkTimingRecord "op" 0 1 1.0 []; mkTimingRecord "op > sub" 1 4 3.0 [];
       mkTimingRecord "CHECKPOINT: x" 4 4 0.0 []] = Ok stats ∧
    dict_get "op" stats = Some s ∧
    count s = 2 ∧
    Profiler.operation_row 4.0 ("op", data) = OperationRow "op" 4.0 2 2.0 pct.
Proof.
  destruct (summary_table_agrees_with_get_stats
              [mkTimingRecord "op" 0 1 1.0 []; mkTimingRecord "op > sub" 1 4 3.0 [];
               mkTimingRecord "CHECKPOINT: x" 4 4 0.0 []])
    as (stats & Hrun & _ & Hop).
  destruct (Hop "op") as [_ Hdata].
  destruct (Hdata (mkOpData 4.0 2
                     [mkTimingRecord "op" 0 1 1.0 [];
                      mkTimingRecord "op > sub" 1 4 3.0 []]) eq_refl)
    as (_ & _ & _ & _ & (s & Hs & Hcount) & Hrow).
  destruct (Hrow 4.0%float) as [pct Hpct].
  eexists _, s, stats, pct.
  split_and!; [reflexivity | exact Hrun | exact Hs | exact Hcount | exact Hpct].
Defined.

(** A summary asked for with [top_n = -1] of two operations: one operation
    row is printed. *)
Lemma summary_section_sizes_example :
  length
    (List.filter is_operation_row
       (Profiler.summary_lines (-1)
          [mkTimingRecord "load" 0 1 1.0 []; mkTimingRecord "save" 1 4 3.0 []]))
  = 1.
Proof.
  destruct (summary_section_sizes (-1)
              [mkTimingRecord "load" 0 1 1.0 []; mkTimingRecord "save" 1 4 3.0 []])
    as (_ & Hrows & _).
  rewrite Hrows. reflexivity.
Defined.

(** The slower of two records comes first. *)
Lemma summary_sections_example :
  Profiler.slowest
    [mkTimingRecord "load" 0 1 1.0 []; mkTimingRecord "save" 1 4 3.0 []]
  = [mkTimingRecord "save" 1 4 3.0 []; mkTimingRecord "load" 0 1 1.0 []] ∧
  (3.0 <? 1.0)%float = false ∧
  (1.0 <=? 3.0)%float = true.
Proof.
  destruct (summary_sections_are_descending 20
              [mkTimingRecord "load" 0 1 1.0 []; mkTimingRecord "save" 1 4 3.0 []])
    as [_ Hslow].
  - repeat (constructor; [reflexivity|]). constructor.
  - repeat (constructor; [intros _; reflexivity|]). constructor.
  - split; [reflexivity|].
    exact (Hslow 0 1 (mkTimingRecord "save" 1 4 3.0 [])
             (mkTimingRecord "load" 0 1 1.0 []) (le_n 1) eq_refl eq_refl).
Defined.
